(** * ve.dm.Transaction: operation accumulation and the static builders

    A shallow embedding of [modules/ve2/dm/ve.dm.Transaction.js].  A
    transaction is the JavaScript object [{ operations, lengthDifference }];
    the [push*] methods mutate it and may throw, so they are embedded in a
    small state-and-error monad over the transaction under construction.  The
    static builders run such a computation on a fresh transaction. *)

From Stdlib Require Import ZArith List String Ascii Bool Lia DecimalString.
Import ListNotations.
Open Scope Z_scope.

Set Implicit Arguments.

(** ** JavaScript values and linear data *)

(** The values the builders pass around without looking inside: attribute
    values ("Mixed") and annotation objects.  [VInherited key] is what a
    plain object without an own property [key] gives for it through its
    prototype: the function [Object] for 'constructor', the method
    [Object.prototype.toString] for 'toString', and so on. *)
#[warnings="-register-all"]
Inductive Value : Type :=
| VUndefined
| VNull
| VBool (b : bool)
| VNum (n : Z)
| VStr (s : string)
| VObj (fields : list (string * Value))
| VInherited (key : string).

(** An [attributes] object: a plain object, given by its own properties in
    insertion order. *)
Definition Attributes : Type := list (string * Value).

(** The property names of [Object.prototype], which every plain object
    inherits. *)
Definition objectPrototype : list string :=
  ["constructor"; "hasOwnProperty"; "isPrototypeOf"; "propertyIsEnumerable";
   "toLocaleString"; "toString"; "valueOf"; "__proto__";
   "__defineGetter__"; "__defineSetter__"; "__lookupGetter__";
   "__lookupSetter__"]%string.

Definition inheritedKey (key : string) : bool :=
  existsb (String.eqb key) objectPrototype.

(** [attributes[key]]: the value of the own property when there is one,
    else what the prototype has under [key], else [undefined]. *)
Fixpoint getProperty (attributes : Attributes) (key : string) : Value :=
  match attributes with
  | [] => if inheritedKey key then VInherited key else VUndefined
  | (k, v) :: rest => if String.eqb k key then v else getProperty rest key
  end.

(** One item of the linear data.  Content is a character with its annotation
    set, an element is [{ type, attributes? }]; [IUndefined] is what indexing
    an array outside its bounds gives. *)
Inductive Item : Type :=
| IUndefined
| IContent (character : string) (annotations : list Value)
| IElement (type : string) (attributes : option Attributes).

(** [array.length] as a JavaScript number. *)
Definition len {A : Type} (l : list A) : Z := Z.of_nat (List.length l).

(** [Number.MAX_SAFE_INTEGER].  Lengths and offsets are integers; the
    numbers of JavaScript are doubles, whose [+] on integers is exact as
    long as the operands and the sum are at most this large. *)
Definition maxSafeInteger : Z := 2 ^ 53 - 1.

(** [data[i]]. *)
Definition index (data : list Item) (i : Z) : Item :=
  if i <? 0 then IUndefined else nth (Z.to_nat i) data IUndefined.

(** [Array.prototype.slice( begin, end )]: negative arguments count from the
    end, both are clamped to the array, and a crossed pair gives []. *)
Definition clamp {A : Type} (l : list A) (k : Z) : Z :=
  if k <? 0 then Z.max (len l + k) 0 else Z.min k (len l).

Definition slice {A : Type} (l : list A) (b e : Z) : list A :=
  let from := clamp l b in
  let to := clamp l e in
  firstn (Z.to_nat (to - from)) (skipn (Z.to_nat from) l).

(** ** Thrown values *)

(** The builders throw strings; one constructor per [throw] statement, with
    the numbers that are spliced into the message.  [TypeError] is the
    engine's exception for a property read on [undefined] or [null]. *)
Inductive Error : Type :=
| InvalidRetain (length : Z)
    (* 'Invalid retain length, can not retain backwards:' + length *)
| InvalidRange (from to : Z)
    (* 'Invalid range, cannot remove from ' + start + ' to ' + end *)
| NotAnElement
    (* 'Can not set attributes to non-element data' *)
| ClosingElement
    (* 'Can not set attributes on closing element' *)
| TypeError.

(** The string that is thrown, for the four [throw] statements.  A number
    is spliced in with all its digits, as JavaScript prints an integer
    below 10^21. *)
Definition showNumber (n : Z) : string :=
  NilZero.string_of_int (Z.to_int n).

Definition errorMessage (e : Error) : string :=
  match e with
  | InvalidRetain length =>
      String.append "Invalid retain length, can not retain backwards:"
        (showNumber length)
  | InvalidRange from to =>
      String.append "Invalid range, cannot remove from "
        (String.append (showNumber from)
           (String.append " to " (showNumber to)))
  | NotAnElement => "Can not set attributes to non-element data"
  | ClosingElement => "Can not set attributes on closing element"
  | TypeError => "TypeError"
  end.

Inductive Result (A : Type) : Type :=
| Ok (a : A)
| Err (e : Error).
Arguments Ok {A} a.
Arguments Err {A} e.

(** [item.type]: a string for an element, [undefined] for content, and a
    TypeError when the item itself is [undefined]. *)
Definition itemType (item : Item) : Result (option string) :=
  match item with
  | IUndefined => Err TypeError
  | IContent _ _ => Ok None
  | IElement type _ => Ok (Some type)
  end.

(** [type.charAt( 0 ) === '/']. *)
Definition isClosingType (type : string) : bool :=
  match type with
  | String c _ => Ascii.eqb c "/"%char
  | EmptyString => false
  end.

(** ** Operations and transactions *)

Inductive Operation : Type :=
| OpRetain (length : Z)
| OpReplace (remove insert : list Item)
| OpAttribute (key : string) (from to : Value)
| OpAnnotate (method bias : string) (annotation : Value).

Record Transaction : Type := mkTransaction {
  operations : list Operation;
  lengthDifference : Z
}.

(** [new ve.dm.Transaction()]. *)
Definition newTransaction : Transaction :=
  {| operations := []; lengthDifference := 0 |}.

Definition getOperations (tx : Transaction) : list Operation := operations tx.
Definition getLengthDifference (tx : Transaction) : Z := lengthDifference tx.

(** ** The monad of the [push*] methods *)

Definition M (A : Type) : Type := Transaction -> Result (A * Transaction).

Definition ret {A : Type} (a : A) : M A := fun tx => Ok (a, tx).
Definition throw {A : Type} (e : Error) : M A := fun _ => Err e.
Definition bind {A B : Type} (m : M A) (k : A -> M B) : M B :=
  fun tx => match m tx with
            | Ok (a, tx') => k a tx'
            | Err e => Err e
            end.
Definition lift {A : Type} (r : Result A) : M A :=
  fun tx => match r with
            | Ok a => Ok (a, tx)
            | Err e => Err e
            end.

Declare Scope tx_scope.
Delimit Scope tx_scope with tx.
Notation "x <- m ;; k" := (bind m (fun x => k))
  (at level 61, m at next level, right associativity) : tx_scope.
Notation "m ;; k" := (bind m (fun _ => k))
  (at level 61, right associativity) : tx_scope.
Open Scope tx_scope.

(** Run a builder body on a fresh transaction and return the transaction. *)
Definition build (body : M unit) : Result Transaction :=
  match body newTransaction with
  | Ok (_, tx) => Ok tx
  | Err e => Err e
  end.

(** ** Operation accumulation *)

(** [pushRetain( length )].  [n + length] is [end.length += length] on
    integers. *)
Definition pushRetain (length : Z) : M unit := fun tx =>
  if length <? 0 then Err (InvalidRetain length)
  else if length =? 0 then Ok (tt, tx)
  else
    match rev (operations tx) with
    | OpRetain n :: before =>
        Ok (tt, {| operations := rev before ++ [OpRetain (n + length)];
                   lengthDifference := lengthDifference tx |})
    | _ =>
        Ok (tt, {| operations := operations tx ++ [OpRetain length];
                   lengthDifference := lengthDifference tx |})
    end.

(** [pushReplace( remove, insert )]. *)
Definition pushReplace (remove insert : list Item) : M unit := fun tx =>
  if (len remove =? 0) && (len insert =? 0) then Ok (tt, tx)
  else
    Ok (tt, {| operations := operations tx ++ [OpReplace remove insert];
               lengthDifference :=
                 lengthDifference tx + (len insert - len remove) |}).

(** [pushReplaceElementAttribute( key, from, to )]. *)
Definition pushReplaceElementAttribute (key : string) (from to : Value)
  : M unit := fun tx =>
  Ok (tt, {| operations := operations tx ++ [OpAttribute key from to];
             lengthDifference := lengthDifference tx |}).

(** [pushStartAnnotating( method, annotation )]. *)
Definition pushStartAnnotating (method : string) (annotation : Value)
  : M unit := fun tx =>
  Ok (tt, {| operations := operations tx ++ [OpAnnotate method "start" annotation];
             lengthDifference := lengthDifference tx |}).

(** [pushStopAnnotating( method, annotation )]. *)
Definition pushStopAnnotating (method : string) (annotation : Value)
  : M unit := fun tx =>
  Ok (tt, {| operations := operations tx ++ [OpAnnotate method "stop" annotation];
             lengthDifference := lengthDifference tx |}).

(** ** Ranges, nodes and the document *)

(** Modelled from the spec: [ve.Range] is not among the sources.  A range is
    a pair of offsets, and [normalize()] "swaps them if needed" so that
    [start <= end]. *)
Record Range : Type := mkRange { start : Z; end_ : Z }.

Definition normalize (range : Range) : Range :=
  if end_ range <? start range
  then {| start := end_ range; end_ := start range |}
  else range.

(** Nodes are objects compared by identity ([branch === previousBranch]);
    a node is named by its index in the document's arena. *)
Definition Node : Type := nat.

(** One entry of a [selectNodes] result; [range] is absent when the node is
    covered entirely. *)
Record Selected : Type := mkSelected {
  node : Node;
  range : option Range;
  nodeRange : Range;
  nodeOuterRange : Range
}.

(** Modelled from the spec: [ve.dm.Document] and [ve.dm.Node] are not among
    the sources.  The builders only call their methods, so a document is its
    linear data together with what each of those methods answers. *)
Record Document : Type := mkDocument {
  getData : list Item;
  fixupInsertion : list Item -> Z -> list Item;
  selectNodes : Range -> string -> list Selected;
  offsetContainsAnnotation : Z -> Value -> bool;
  canBeMergedWith : Node -> Node -> bool;
  isContent : Node -> bool;
  getParent : Node -> option Node;
  getOuterRange : Node -> Range;
  getLength : Node -> Z
}.

(** ** Static builders *)

(** [ve.dm.Transaction.newFromInsertion( doc, offset, insertion )]. *)
Definition newFromInsertion (doc : Document) (offset : Z)
    (insertion : list Item) : Result Transaction :=
  build (
    let data := getData doc in
    let insertion := fixupInsertion doc insertion offset in
    pushRetain offset ;;
    pushReplace [] insertion ;;
    pushRetain (len data - offset)).

(** The span a selection entry contributes in the loop of [newFromRemoval]:
    the outer range of a node that is covered entirely, the covered range
    otherwise. *)
Definition removalSpan (selected : Selected) : Z * Z :=
  match range selected with
  | None => (start (nodeOuterRange selected), end_ (nodeOuterRange selected))
  | Some r => (start r, end_ r)
  end.

(** The body of the [for] loop of [newFromRemoval].  The loop variables are
    [offset] and the pending removal: [removeStart] and [removeEnd] are both
    [null] ([None]) or both set. *)
Fixpoint removalLoop (data : list Item) (selection : list Selected)
    (offset : Z) (pending : option (Z * Z)) : M (Z * option (Z * Z)) :=
  match selection with
  | [] => ret (offset, pending)
  | selected :: rest =>
      let '(nodeStart, nodeEnd) := removalSpan selected in
      match pending with
      | None =>
          removalLoop data rest offset (Some (nodeStart, nodeEnd))
      | Some (removeStart, removeEnd) =>
          if removeEnd =? nodeStart then
            removalLoop data rest offset (Some (removeStart, nodeEnd))
          else
            pushRetain (removeStart - offset) ;;
            pushReplace (slice data removeStart removeEnd) [] ;;
            removalLoop data rest removeEnd (Some (nodeStart, nodeEnd))
      end
  end.

(** [( selected.range || selected.nodeRange )]. *)
Definition rangeOrNodeRange (selected : Selected) : Range :=
  match range selected with
  | Some r => r
  | None => nodeRange selected
  end.

(** The bounds of the single removal of the merge branch. *)
Definition mergeSpan (first last : Selected) : Z * Z :=
  match range first, range last with
  | None, None =>
      (start (nodeOuterRange first), end_ (nodeOuterRange last))
  | _, _ =>
      (start (rangeOrNodeRange first), end_ (rangeOrNodeRange last))
  end.

(** [ve.dm.Transaction.newFromRemoval( doc, range )]. *)
Definition newFromRemoval (doc : Document) (range : Range)
  : Result Transaction :=
  build (
    let data := getData doc in
    let range := normalize range in
    if start range =? end_ range then
      pushRetain (len data)
    else
      let selection := selectNodes doc range "covered" in
      match selection with
      | [] => throw (InvalidRange (start range) (end_ range))
      | first :: _ =>
          let last := List.last selection first in
          if canBeMergedWith doc (node first) (node last) then
            let '(removeStart, removeEnd) := mergeSpan first last in
            pushRetain removeStart ;;
            pushReplace (slice data removeStart removeEnd) [] ;;
            pushRetain (len data - removeEnd)
          else
            st <- removalLoop data selection 0 None ;;
            let '(offset, pending) := st in
            match pending with
            | Some (removeStart, removeEnd) =>
                pushRetain (removeStart - offset) ;;
                pushReplace (slice data removeStart removeEnd) [] ;;
                pushRetain (len data - removeEnd)
            | None =>
                pushRetain (len data - offset)
            end
      end).

(** [ve.dm.Transaction.newFromAttributeChange( doc, offset, key, value )]. *)
Definition newFromAttributeChange (doc : Document) (offset : Z)
    (key : string) (value : Value) : Result Transaction :=
  build (
    let data := getData doc in
    type <- lift (itemType (index data offset)) ;;
    match type with
    | None => throw NotAnElement
    | Some type =>
        if isClosingType type then throw ClosingElement
        else
          pushRetain offset ;;
          pushReplaceElementAttribute key
            match index data offset with
            | IElement _ (Some attributes) => getProperty attributes key
            | _ => VUndefined
            end
            value ;;
          pushRetain (len data - offset)
    end).

(** The [while ( i < range.end )] loop of [newFromAnnotation]; [steps] is
    the number of iterations left, [range.end - i]. *)
Fixpoint annotationLoop (doc : Document) (method : string)
    (annotation : Value) (steps : nat) (i span : Z) (on : bool)
  : M (Z * bool) :=
  match steps with
  | O => ret (span, on)
  | S steps' =>
      type <- lift (itemType (index (getData doc) i)) ;;
      st <-
        match type with
        | Some _ =>
            if on then
              pushRetain span ;;
              pushStopAnnotating method annotation ;;
              ret (0, false)
            else ret (span, on)
        | None =>
            let covered := offsetContainsAnnotation doc i annotation in
            if (covered && String.eqb method "set")
               || (negb covered && String.eqb method "clear")
            then
              if on then
                pushRetain span ;;
                pushStopAnnotating method annotation ;;
                ret (0, false)
              else ret (span, on)
            else
              if negb on then
                pushRetain span ;;
                pushStartAnnotating method annotation ;;
                ret (0, true)
              else ret (span, on)
        end ;;
      let '(span, on) := st in
      annotationLoop doc method annotation steps' (i + 1) (span + 1) on
  end.

(** [ve.dm.Transaction.newFromAnnotation( doc, range, method, annotation )].
    The [hash] the source computes from the annotation is never read. *)
Definition newFromAnnotation (doc : Document) (range : Range)
    (method : string) (annotation : Value) : Result Transaction :=
  build (
    let data := getData doc in
    let range := normalize range in
    st <- annotationLoop doc method annotation
            (Z.to_nat (end_ range - start range))
            (start range) (start range) false ;;
    let '(span, on) := st in
    pushRetain span ;;
    (if on then pushStopAnnotating method annotation else ret tt) ;;
    pushRetain (len data - end_ range)).

(** [ve.isPlainObject( attr )] followed by [opening.attributes = attr]. *)
Definition openingAttributes (attr : Value) : option Attributes :=
  match attr with
  | VObj fields => Some fields
  | _ => None
  end.

(** The [for] loop of [newFromContentBranchConversion]; [previous] is
    [previousBranch] with [previousBranchOuterRange], both [undefined]
    ([None]) until a branch has been converted. *)
Fixpoint conversionLoop (doc : Document) (opening closing : Item)
    (selection : list Selected) (previous : option (Node * Range))
  : M (option (Node * Range)) :=
  match selection with
  | [] => ret previous
  | selected :: rest =>
      if isContent doc (node selected) then
        match getParent doc (node selected) with
        | None => throw TypeError
        | Some branch =>
            let branchOuterRange := getOuterRange doc branch in
            if match previous with
               | Some (previousBranch, _) => Nat.eqb branch previousBranch
               | None => false
               end
            then conversionLoop doc opening closing rest previous
            else
              pushRetain (start branchOuterRange
                          - match previous with
                            | Some (_, previousBranchOuterRange) =>
                                end_ previousBranchOuterRange
                            | None => 0
                            end) ;;
              pushReplace [index (getData doc) (start branchOuterRange)]
                          [opening] ;;
              pushRetain (getLength doc branch) ;;
              pushReplace [index (getData doc) (end_ branchOuterRange - 1)]
                          [closing] ;;
              conversionLoop doc opening closing rest
                (Some (branch, branchOuterRange))
        end
      else conversionLoop doc opening closing rest previous
  end.

(** [ve.dm.Transaction.newFromContentBranchConversion( doc, range, type,
    attr )]. *)
Definition newFromContentBranchConversion (doc : Document) (range : Range)
    (type : string) (attr : Value) : Result Transaction :=
  build (
    let data := getData doc in
    let selection := selectNodes doc range "leaves" in
    let opening := IElement type (openingAttributes attr) in
    let closing := IElement (String.append "/" type) None in
    previous <- conversionLoop doc opening closing selection None ;;
    pushRetain (len data
                - match previous with
                  | Some (_, previousBranchOuterRange) =>
                      end_ previousBranchOuterRange
                  | None => 0
                  end)).

(** ** What the specification says about operation lists *)

(** The items of the original document an operation list walks over: the
    length of every retain plus the length of every replace's [remove]. *)
Fixpoint consumed (ops : list Operation) : Z :=
  match ops with
  | [] => 0
  | OpRetain n :: rest => n + consumed rest
  | OpReplace remove _ :: rest => len remove + consumed rest
  | _ :: rest => consumed rest
  end.

(** The running sum of [insert.length - remove.length] over the replaces. *)
Fixpoint lengthDelta (ops : list Operation) : Z :=
  match ops with
  | [] => 0
  | OpReplace remove insert :: rest =>
      (len insert - len remove) + lengthDelta rest
  | _ :: rest => lengthDelta rest
  end.

Definition isReplace (op : Operation) : bool :=
  match op with
  | OpReplace _ _ => true
  | _ => false
  end.

Definition isRetain (op : Operation) : bool :=
  match op with
  | OpRetain _ => true
  | _ => false
  end.

(** The replace operations of a list, in order. *)
Definition replaces (ops : list Operation) : list Operation :=
  filter isReplace ops.

(** A retain as it is recorded: not at all when its length is zero. *)
Definition retainOps (n : Z) : list Operation :=
  if n =? 0 then [] else [OpRetain n].

(** An intended sequence of operations as a transaction records it: "a
    no-op replace is dropped, never recorded", a zero-length retain is a
    no-op, and "adjacent retains must be coalesced into one". *)
Fixpoint recorded (ops : list Operation) : list Operation :=
  match ops with
  | [] => []
  | op :: rest =>
      let rest' := recorded rest in
      match op with
      | OpRetain n =>
          if n =? 0 then rest'
          else match rest' with
               | OpRetain m :: rest'' => OpRetain (n + m) :: rest''
               | _ => OpRetain n :: rest'
               end
      | OpReplace [] [] => rest'
      | _ => op :: rest'
      end
  end.

(** The operation list after [pushRetain] has accepted a positive length. *)
Definition withRetain (ops : list Operation) (length : Z) : list Operation :=
  match rev ops with
  | OpRetain n :: before => rev before ++ [OpRetain (n + length)]
  | _ => ops ++ [OpRetain length]
  end.

(** ** Example documents *)

(** A document whose collaborators answer nothing of interest: insertions
    are legal as they are, no node is selected, nothing is annotated. *)
Definition plainDocument (data : list Item) : Document :=
  {| getData := data;
     fixupInsertion := fun insertion _ => insertion;
     selectNodes := fun _ _ => [];
     offsetContainsAnnotation := fun _ _ => false;
     canBeMergedWith := fun _ _ => false;
     isContent := fun _ => false;
     getParent := fun _ => None;
     getOuterRange := fun _ => {| start := 0; end_ := 0 |};
     getLength := fun _ => 0 |}.

(** [[{type:'paragraph'}, 'a', {type:'/paragraph'}]]. *)
Definition paragraphData : list Item :=
  [IElement "paragraph" None; IContent "a" []; IElement "/paragraph" None].

Definition paragraphDocument : Document := plainDocument paragraphData.

(** [new ve.dm.Document( [] )]. *)
Definition emptyDocument : Document := plainDocument [].

(** A paragraph followed by a level-1 heading:
    [[<paragraph>, 'a', </paragraph>, <heading level=1>, 'b', </heading>]]. *)
Definition headingData : list Item :=
  [IElement "paragraph" None; IContent "a" []; IElement "/paragraph" None;
   IElement "heading" (Some [("level"%string, VNum 1)]); IContent "b" [];
   IElement "/heading" None].

Definition headingDocument : Document := plainDocument headingData.

(** Five plain characters, [['h', 'e', 'l', 'l', 'o']]. *)
Definition helloData : list Item :=
  [IContent "h" []; IContent "e" []; IContent "l" []; IContent "l" [];
   IContent "o" []].

Definition helloDocument : Document := plainDocument helloData.

(** [{ type: 'bold' }]. *)
Definition bold : Value := VObj [("type"%string, VStr "bold")].

(** Two paragraphs, the 'b' of the first one already bold:
    [[<paragraph>, 'a', ['b', bold], 'c', </paragraph>,
      <paragraph>, 'd', </paragraph>]]. *)
Definition boldData : list Item :=
  [IElement "paragraph" None; IContent "a" []; IContent "b" [bold];
   IContent "c" []; IElement "/paragraph" None;
   IElement "paragraph" None; IContent "d" []; IElement "/paragraph" None].

Definition boldDocument : Document :=
  {| getData := boldData;
     fixupInsertion := fun insertion _ => insertion;
     selectNodes := fun _ _ => [];
     offsetContainsAnnotation := fun offset _ => offset =? 2;
     canBeMergedWith := fun _ _ => false;
     isContent := fun _ => false;
     getParent := fun _ => None;
     getOuterRange := fun _ => {| start := 0; end_ := 0 |};
     getLength := fun _ => 0 |}.

(** ** The removal of [newFromRemoval], in the specification's words *)

(** The merge points as the specification words them: for the first node the
    start of its outer range when it is covered entirely and the start of
    its covered range otherwise, and for the last node the same with ends. *)
Definition outerMergeSpan (first last : Selected) : Z * Z :=
  (match range first with
   | None => start (nodeOuterRange first)
   | Some r => start r
   end,
   match range last with
   | None => end_ (nodeOuterRange last)
   | Some r => end_ r
   end).

(** "Contiguous removal spans (no gap between one node's end and the next's
    start) are coalesced". *)
Fixpoint coalesceSpans (spans : list (Z * Z)) : list (Z * Z) :=
  match spans with
  | [] => []
  | (s, e) :: rest =>
      match coalesceSpans rest with
      | (s', e') :: more =>
          if e =? s' then (s, e') :: more else (s, e) :: (s', e') :: more
      | [] => [(s, e)]
      end
  end.

(** One replace per span, "separated by a retain for the untouched gap",
    and a last retain up to the end of the document; [offset] is where the
    previous span ended. *)
Fixpoint emitSpans (data : list Item) (spans : list (Z * Z)) (offset : Z)
  : M unit :=
  match spans with
  | [] => pushRetain (len data - offset)
  | (s, e) :: rest =>
      pushRetain (s - offset) ;;
      pushReplace (slice data s e) [] ;;
      emitSpans data rest e
  end.




(** Whether the list of operations ends with a retain. *)
Definition endsWithRetain (ops : list Operation) : bool :=
  match rev ops with
  | OpRetain _ :: _ => true
  | _ => false
  end.

(** ** What the builders expect of the document *)

(** Modelled from the spec: [selectNodes] is not among the sources.  Its
    entries report ranges of the document, and a range has [start <= end]
    once normalized, the entries coming in document order.  What the removal
    needs of this is that every span it reads off the selection runs
    forward: the spans of the loop, and the span of the merge branch. *)
Definition forwardSelection (selection : list Selected) : bool :=
  forallb (fun selected =>
             fst (removalSpan selected) <=? snd (removalSpan selected))
          selection
  && match selection with
     | [] => true
     | first :: _ =>
         fst (mergeSpan first (List.last selection first))
         <=? snd (mergeSpan first (List.last selection first))
     end.

(** Modelled from the spec: the node classes are not among the sources.  A
    node's "outerRange (covers markers + content)" and its "range (content
    only, excludes its own open/close markers)" differ by the two markers,
    so the parent of every selected content node is a branch whose length
    is its outer range without the two markers. *)
Definition branchesMeasured (doc : Document) (selection : list Selected)
  : bool :=
  forallb (fun selected =>
             if isContent doc (node selected) then
               match getParent doc (node selected) with
               | None => true
               | Some branch =>
                   getLength doc branch
                   =? end_ (getOuterRange doc branch)
                      - start (getOuterRange doc branch) - 2
               end
             else true)
          selection.

(** A call of one of the five static builders. *)
Inductive BuilderCall : Type :=
| InsertionCall (offset : Z) (insertion : list Item)
| RemovalCall (range : Range)
| AttributeChangeCall (offset : Z) (key : string) (value : Value)
| AnnotationCall (range : Range) (method : string) (annotation : Value)
| ContentBranchConversionCall (range : Range) (type : string) (attr : Value).

Definition callBuilder (doc : Document) (call : BuilderCall)
  : Result Transaction :=
  match call with
  | InsertionCall offset insertion => newFromInsertion doc offset insertion
  | RemovalCall range => newFromRemoval doc range
  | AttributeChangeCall offset key value =>
      newFromAttributeChange doc offset key value
  | AnnotationCall range method annotation =>
      newFromAnnotation doc range method annotation
  | ContentBranchConversionCall range type attr =>
      newFromContentBranchConversion doc range type attr
  end.

(** What a call relies on in the selection the document answers. *)
Definition selectionConsistent (doc : Document) (call : BuilderCall) : bool :=
  match call with
  | RemovalCall range =>
      forwardSelection (selectNodes doc (normalize range) "covered")
  | ContentBranchConversionCall range _ _ =>
      branchesMeasured doc (selectNodes doc range "leaves")
  | _ => true
  end.

(** ** Example documents with a node tree *)

Definition rangeEqb (a b : Range) : bool :=
  (start a =? start b) && (end_ a =? end_ b).

Definition memberOf (nodes : list Node) (n : Node) : bool :=
  existsb (Nat.eqb n) nodes.

(** [<paragraph>ab</paragraph><paragraph>cd</paragraph>].  Node 1 and 3 are
    the paragraphs, 2 and 4 their text nodes; two nodes can be merged when
    both are paragraphs or both are text.  The range 2..6 starts inside the
    first text node and ends inside the second. *)
Definition twoParagraphsData : list Item :=
  [IElement "paragraph" None; IContent "a" []; IContent "b" [];
   IElement "/paragraph" None;
   IElement "paragraph" None; IContent "c" []; IContent "d" [];
   IElement "/paragraph" None].

Definition endOfFirstText : Selected :=
  {| node := 2%nat;
     range := Some {| start := 2; end_ := 3 |};
     nodeRange := {| start := 1; end_ := 3 |};
     nodeOuterRange := {| start := 1; end_ := 3 |} |}.

Definition startOfSecondText : Selected :=
  {| node := 4%nat;
     range := Some {| start := 5; end_ := 6 |};
     nodeRange := {| start := 5; end_ := 7 |};
     nodeOuterRange := {| start := 5; end_ := 7 |} |}.

Definition twoParagraphsSelection : list Selected :=
  [endOfFirstText; startOfSecondText].

Definition twoParagraphsDocument : Document :=
  {| getData := twoParagraphsData;
     fixupInsertion := fun insertion _ => insertion;
     selectNodes := fun r mode =>
       if rangeEqb r {| start := 2; end_ := 6 |}
       then twoParagraphsSelection else [];
     offsetContainsAnnotation := fun _ _ => false;
     canBeMergedWith := fun a b =>
       (memberOf [1; 3]%nat a && memberOf [1; 3]%nat b)
       || (memberOf [2; 4]%nat a && memberOf [2; 4]%nat b);
     isContent := memberOf [2; 4]%nat;
     getParent := fun n =>
       if Nat.eqb n 2 then Some 1%nat
       else if Nat.eqb n 4 then Some 3%nat
       else None;
     getOuterRange := fun n =>
       if Nat.eqb n 1 then {| start := 0; end_ := 4 |}
       else if Nat.eqb n 2 then {| start := 1; end_ := 3 |}
       else if Nat.eqb n 3 then {| start := 4; end_ := 8 |}
       else {| start := 5; end_ := 7 |};
     getLength := fun _ => 2 |}.

(** [<paragraph>ab</paragraph><paragraph></paragraph>].  Node 1 and 3 are
    the paragraphs, which can be merged.  The range 0..5 covers the first
    paragraph entirely and ends inside the second, empty one. *)
Definition emptySecondParagraphData : list Item :=
  [IElement "paragraph" None; IContent "a" []; IContent "b" [];
   IElement "/paragraph" None;
   IElement "paragraph" None; IElement "/paragraph" None].

Definition coveredFirstParagraph : Selected :=
  {| node := 1%nat;
     range := None;
     nodeRange := {| start := 1; end_ := 3 |};
     nodeOuterRange := {| start := 0; end_ := 4 |} |}.

Definition touchedSecondParagraph : Selected :=
  {| node := 3%nat;
     range := Some {| start := 5; end_ := 5 |};
     nodeRange := {| start := 5; end_ := 5 |};
     nodeOuterRange := {| start := 4; end_ := 6 |} |}.

Definition emptySecondParagraphDocument : Document :=
  {| getData := emptySecondParagraphData;
     fixupInsertion := fun insertion _ => insertion;
     selectNodes := fun r mode =>
       if rangeEqb r {| start := 0; end_ := 5 |}
       then [coveredFirstParagraph; touchedSecondParagraph] else [];
     offsetContainsAnnotation := fun _ _ => false;
     canBeMergedWith := fun a b =>
       memberOf [1; 3]%nat a && memberOf [1; 3]%nat b;
     isContent := memberOf [2]%nat;
     getParent := fun n => if Nat.eqb n 2 then Some 1%nat else None;
     getOuterRange := fun n =>
       if Nat.eqb n 1 then {| start := 0; end_ := 4 |}
       else if Nat.eqb n 2 then {| start := 1; end_ := 3 |}
       else {| start := 4; end_ := 6 |};
     getLength := fun n => if Nat.eqb n 3 then 0 else 2 |}.

(** [<heading>ab</heading><paragraph>x</paragraph><paragraph>y</paragraph>
    <paragraph>cd</paragraph>].  Node 1 is the heading, 3, 5 and 7 are the
    paragraphs, the even nodes their text nodes.  The range 2..12 starts in
    the heading's text and ends in the last paragraph's text, which cannot
    be merged; the two paragraphs in between are covered entirely. *)
Definition mixedData : list Item :=
  [IElement "heading" None; IContent "a" []; IContent "b" [];
   IElement "/heading" None;
   IElement "paragraph" None; IContent "x" []; IElement "/paragraph" None;
   IElement "paragraph" None; IContent "y" []; IElement "/paragraph" None;
   IElement "paragraph" None; IContent "c" []; IContent "d" [];
   IElement "/paragraph" None].

Definition endOfHeadingText : Selected :=
  {| node := 2%nat;
     range := Some {| start := 2; end_ := 3 |};
     nodeRange := {| start := 1; end_ := 3 |};
     nodeOuterRange := {| start := 1; end_ := 3 |} |}.

Definition mixedFollowing : list Selected :=
  [{| node := 3%nat;
      range := None;
      nodeRange := {| start := 5; end_ := 6 |};
      nodeOuterRange := {| start := 4; end_ := 7 |} |};
   {| node := 5%nat;
      range := None;
      nodeRange := {| start := 8; end_ := 9 |};
      nodeOuterRange := {| start := 7; end_ := 10 |} |};
   {| node := 8%nat;
      range := Some {| start := 11; end_ := 12 |};
      nodeRange := {| start := 11; end_ := 13 |};
      nodeOuterRange := {| start := 11; end_ := 13 |} |}].

Definition mixedSelection : list Selected :=
  endOfHeadingText :: mixedFollowing.

(** In 'leaves' mode the same range selects the four text nodes. *)
Definition mixedLeaves : list Selected :=
  [{| node := 2%nat;
      range := Some {| start := 2; end_ := 3 |};
      nodeRange := {| start := 1; end_ := 3 |};
      nodeOuterRange := {| start := 1; end_ := 3 |} |};
   {| node := 4%nat;
      range := None;
      nodeRange := {| start := 5; end_ := 6 |};
      nodeOuterRange := {| start := 5; end_ := 6 |} |};
   {| node := 6%nat;
      range := None;
      nodeRange := {| start := 8; end_ := 9 |};
      nodeOuterRange := {| start := 8; end_ := 9 |} |};
   {| node := 8%nat;
      range := Some {| start := 11; end_ := 12 |};
      nodeRange := {| start := 11; end_ := 13 |};
      nodeOuterRange := {| start := 11; end_ := 13 |} |}].

Definition mixedDocument : Document :=
  {| getData := mixedData;
     fixupInsertion := fun insertion _ => insertion;
     selectNodes := fun r mode =>
       if rangeEqb r {| start := 2; end_ := 12 |} then
         if String.eqb mode "covered" then mixedSelection else mixedLeaves
       else [];
     offsetContainsAnnotation := fun _ _ => false;
     canBeMergedWith := fun a b =>
       (memberOf [3; 5; 7]%nat a && memberOf [3; 5; 7]%nat b)
       || (memberOf [4; 6; 8]%nat a && memberOf [4; 6; 8]%nat b)
       || Nat.eqb a b;
     isContent := memberOf [2; 4; 6; 8]%nat;
     getParent := fun n =>
       if memberOf [2; 4; 6; 8]%nat n then Some (Nat.pred n) else None;
     getOuterRange := fun n =>
       if Nat.eqb n 1 then {| start := 0; end_ := 4 |}
       else if Nat.eqb n 3 then {| start := 4; end_ := 7 |}
       else if Nat.eqb n 5 then {| start := 7; end_ := 10 |}
       else {| start := 10; end_ := 14 |};
     getLength := fun n =>
       if memberOf [3; 5]%nat n then 1 else 2 |}.

(** What [newFromRemoval] does with the final state of its loop: "apply
    the last removal, if any", then "retain up to the end". *)
Definition applyLastRemoval (data : list Item) (st : Z * option (Z * Z))
  : M unit :=
  let '(offset, pending) := st in
  match pending with
  | Some (removeStart, removeEnd) =>
      pushRetain (removeStart - offset) ;;
      pushReplace (slice data removeStart removeEnd) [] ;;
      pushRetain (len data - removeEnd)
  | None => pushRetain (len data - offset)
  end.

(** ** The annotation of [newFromAnnotation], in the specification's words *)

(** "For method = set, spans of content not already carrying the annotation
    become annotate-on regions; for method = clear, spans carrying it". *)
Definition eligibleContent (method : string) (covered : bool) : bool :=
  if String.eqb method "set" then negb covered else covered.

(** Whether the item at offset [i] is to be annotated: content that is
    eligible; an element marker never is. *)
Definition eligible (doc : Document) (method : string) (annotation : Value)
    (i : Z) : bool :=
  match index (getData doc) i with
  | IContent _ _ =>
      eligibleContent method (offsetContainsAnnotation doc i annotation)
  | _ => false
  end.

(** Eligibility of the [count] items from offset [i] on. *)
Fixpoint eligibleFrom (doc : Document) (method : string) (annotation : Value)
    (count : nat) (i : Z) : list bool :=
  match count with
  | O => []
  | S count' =>
      eligible doc method annotation i
      :: eligibleFrom doc method annotation count' (i + 1)
  end.

(** For every offset of the document, whether the transaction is to
    annotate the item there: never outside the range, and inside it where
    the item is eligible. *)
Definition annotationMask (doc : Document) (range : Range) (method : string)
    (annotation : Value) : list bool :=
  repeat false (Z.to_nat (start range))
  ++ eligibleFrom doc method annotation
       (Z.to_nat (end_ range - start range)) (start range)
  ++ repeat false (Z.to_nat (len (getData doc) - end_ range)).

(** The maximal runs of equal flags of a mask, each with its length. *)
Fixpoint runs (mask : list bool) : list (bool * Z) :=
  match mask with
  | [] => []
  | b :: rest =>
      match runs rest with
      | (b', n) :: more =>
          if Bool.eqb b b' then (b, n + 1) :: more
          else (b, 1) :: (b', n) :: more
      | [] => [(b, 1)]
      end
  end.

(** A run to annotate is one start/stop pair around one retain; a run to
    leave alone is one retain. *)
Definition runOperations (method : string) (annotation : Value)
    (run : bool * Z) : list Operation :=
  let '(on, length) := run in
  if on then
    [OpAnnotate method "start" annotation; OpRetain length;
     OpAnnotate method "stop" annotation]
  else [OpRetain length].

(** The operations still to come when a run of [span] items in state [on]
    is pending and the mask goes on with the runs [following]. *)
Definition continueRuns (method : string) (annotation : Value) (on : bool)
    (span : Z) (following : list (bool * Z)) : list Operation :=
  if on then
    match following with
    | (true, n) :: more =>
        [OpRetain (span + n); OpAnnotate method "stop" annotation]
        ++ flat_map (runOperations method annotation) more
    | _ =>
        [OpRetain span; OpAnnotate method "stop" annotation]
        ++ flat_map (runOperations method annotation) following
    end
  else
    match following with
    | (false, n) :: more =>
        retainOps (span + n)
        ++ flat_map (runOperations method annotation) more
    | _ =>
        retainOps span
        ++ flat_map (runOperations method annotation) following
    end.

(** What [newFromAnnotation] does after its loop, [tail] being
    [data.length - range.end]. *)
Definition finishAnnotation (method : string) (annotation : Value)
    (tail : Z) (st : Z * bool) : M unit :=
  let '(span, on) := st in
  pushRetain span ;;
  (if on then pushStopAnnotating method annotation else ret tt) ;;
  pushRetain tail.

(** Modelled from the spec: the code that applies a transaction is not among
    the sources.  An annotate operation "toggles application of annotation
    to subsequent content items until the matching stop/start is reached;
    does not itself consume length"; a retain advances over [length] items
    and a replace consumes its [remove].  [annotatedOffsets on ops] tells,
    for each item the operations walk over, whether it is walked over
    between a start and its stop. *)
Fixpoint annotatedOffsets (on : bool) (ops : list Operation) : list bool :=
  match ops with
  | [] => []
  | OpRetain n :: rest => repeat on (Z.to_nat n) ++ annotatedOffsets on rest
  | OpReplace remove _ :: rest =>
      repeat on (List.length remove) ++ annotatedOffsets on rest
  | OpAttribute _ _ _ :: rest => annotatedOffsets on rest
  | OpAnnotate _ bias _ :: rest =>
      annotatedOffsets (String.eqb bias "start") rest
  end.

(** ** Shapes of operation lists *)

(** An operation as the push methods let it into a transaction: a retain
    has a positive length, a replace has something to remove or to
    insert. *)
Definition recordable (op : Operation) : bool :=
  match op with
  | OpRetain n => 0 <? n
  | OpReplace [] [] => false
  | _ => true
  end.

(** The length of the retain a list of operations ends with, which is the
    number [pushRetain] adds to; 0 when it ends otherwise. *)
Definition lastRetain (ops : list Operation) : Z :=
  match rev ops with
  | OpRetain n :: _ => n
  | _ => 0
  end.

Definition startsWithRetain (ops : list Operation) : bool :=
  match ops with
  | OpRetain _ :: _ => true
  | _ => false
  end.

(** Every operation is recordable and no retain follows a retain. *)
Fixpoint canonicalOps (ops : list Operation) : bool :=
  match ops with
  | [] => true
  | op :: rest =>
      recordable op
      && negb (isRetain op && startsWithRetain rest)
      && canonicalOps rest
  end.

(** The operations a call of a builder may record, besides retains. *)
Definition ownOperation (doc : Document) (call : BuilderCall)
    (op : Operation) : Prop :=
  match op with
  | OpRetain _ => True
  | OpReplace remove insert =>
      match call with
      | InsertionCall offset insertion =>
          remove = [] /\ insert = fixupInsertion doc insertion offset
      | RemovalCall _ => insert = []
      | ContentBranchConversionCall _ type attr =>
          exists removed inserted,
            remove = [removed] /\ insert = [inserted] /\
            (inserted = IElement type (openingAttributes attr) \/
             inserted = IElement (String.append "/" type) None)
      | _ => False
      end
  | OpAttribute key _ to =>
      match call with
      | AttributeChangeCall _ key' value => key = key' /\ to = value
      | _ => False
      end
  | OpAnnotate method bias annotation =>
      match call with
      | AnnotationCall _ method' annotation' =>
          method = method' /\ annotation = annotation' /\
          (bias = "start"%string \/ bias = "stop"%string)
      | _ => False
      end
  end.

(** The items a list of operations takes out of the document: the lengths
    of the [remove] arrays of its replaces. *)
Fixpoint removedItems (ops : list Operation) : Z :=
  match ops with
  | [] => 0
  | OpReplace remove _ :: rest => len remove + removedItems rest
  | _ :: rest => removedItems rest
  end.







(** ** The conversion of content branches, branch by branch *)






(** [previousBranch ? previousBranchOuterRange.end : 0]. *)
Definition previousEnd (previous : option (Node * Range)) : Z :=
  match previous with
  | Some (_, previousBranchOuterRange) => end_ previousBranchOuterRange
  | None => 0
  end.

(** ** Start and stop operations as brackets *)

(** Where a walk over the operations stands: outside any start/stop pair,
    right after a start, or after the retain that follows a start. *)
Inductive Bracket : Type :=
| Outside
| Opened
| Inside.

(** One operation further.  Outside a pair a retain or a start may come;
    after a start, a retain; after that retain, the stop.  Anything else
    ends the walk with [None]. *)
Definition bracketStep (state : option Bracket) (op : Operation)
  : option Bracket :=
  match state, op with
  | Some Outside, OpRetain _ => Some Outside
  | Some Outside, OpAnnotate _ bias _ =>
      if String.eqb bias "start" then Some Opened else None
  | Some Opened, OpRetain _ => Some Inside
  | Some Inside, OpAnnotate _ bias _ =>
      if String.eqb bias "stop" then Some Outside else None
  | _, _ => None
  end.

Definition bracketState (ops : list Operation) : option Bracket :=
  fold_left bracketStep ops (Some Outside).

(** ** Replaces that follow each other *)

Definition startsWithReplace (ops : list Operation) : bool :=
  match ops with
  | OpReplace _ _ :: _ => true
  | _ => false
  end.

Definition endsWithReplace (ops : list Operation) : bool :=
  match rev ops with
  | OpReplace _ _ :: _ => true
  | _ => false
  end.

(** No replace comes right after another replace. *)
Fixpoint noAdjacentReplaces (ops : list Operation) : bool :=
  match ops with
  | [] => true
  | op :: rest =>
      negb (isReplace op && startsWithReplace rest)
      && noAdjacentReplaces rest
  end.

(** The pending removal never starts where the last recorded replace
    ended. *)
Definition removalApart (offset : Z) (pending : option (Z * Z))
    (tx : Transaction) : Prop :=
  noAdjacentReplaces (operations tx) = true /\
  (endsWithReplace (operations tx) = true ->
   match pending with
   | Some (removeStart, _) => removeStart <> offset
   | None => False
   end).

(** * Proofs *)

(** ** Basic facts *)

Lemma len_nonneg (A : Type) (l : list A) : 0 <= len l.
Proof. unfold len. lia. Qed.

Lemma len_nil (A : Type) : len (@nil A) = 0.
Proof. reflexivity. Qed.

Lemma len_cons (A : Type) (a : A) (l : list A) : len (a :: l) = len l + 1.
Proof. unfold len. simpl List.length. lia. Qed.

Lemma len_eqb_zero (A : Type) (l : list A) :
  (len l =? 0) = match l with [] => true | _ => false end.
Proof.
  destruct l as [|a l]; [reflexivity|].
  rewrite len_cons. pose proof (len_nonneg l).
  apply Z.eqb_neq. lia.
Qed.

(** A slice taken between two ordered offsets inside the array has exactly
    the length of the interval. *)
Lemma len_slice (A : Type) (l : list A) (b e : Z) :
  0 <= b -> b <= e -> e <= len l -> len (slice l b e) = e - b.
Proof.
  intros Hb Hbe He. unfold slice, clamp.
  replace (b <? 0) with false by (symmetry; apply Z.ltb_ge; lia).
  replace (e <? 0) with false by (symmetry; apply Z.ltb_ge; lia).
  rewrite !Z.min_l by lia.
  unfold len in *. rewrite length_firstn, length_skipn. lia.
Qed.

Lemma consumed_app (ops1 ops2 : list Operation) :
  consumed (ops1 ++ ops2) = consumed ops1 + consumed ops2.
Proof.
  induction ops1 as [|op ops1 IH]; simpl; [reflexivity|].
  destruct op; rewrite IH; lia.
Qed.

Lemma lengthDelta_app (ops1 ops2 : list Operation) :
  lengthDelta (ops1 ++ ops2) = lengthDelta ops1 + lengthDelta ops2.
Proof.
  induction ops1 as [|op ops1 IH]; simpl; [reflexivity|].
  destruct op; rewrite IH; lia.
Qed.

Lemma replaces_app (ops1 ops2 : list Operation) :
  replaces (ops1 ++ ops2) = replaces ops1 ++ replaces ops2.
Proof. apply filter_app. Qed.

(** *** [pushRetain] case by case *)

Lemma pushRetain_negative (length : Z) (tx : Transaction) :
  length < 0 -> pushRetain length tx = Err (InvalidRetain length).
Proof.
  intros H. unfold pushRetain.
  apply Z.ltb_lt in H. rewrite H. reflexivity.
Qed.

Lemma pushRetain_zero (tx : Transaction) : pushRetain 0 tx = Ok (tt, tx).
Proof. reflexivity. Qed.

Lemma pushRetain_positive (length : Z) (tx : Transaction) :
  0 < length ->
  pushRetain length tx =
  Ok (tt, {| operations := withRetain (operations tx) length;
             lengthDifference := lengthDifference tx |}).
Proof.
  intros H. unfold pushRetain, withRetain.
  replace (length <? 0) with false by (symmetry; apply Z.ltb_ge; lia).
  replace (length =? 0) with false by (symmetry; apply Z.eqb_neq; lia).
  destruct (rev (operations tx)) as [|[] before]; reflexivity.
Qed.

Lemma withRetain_after_retain (before : list Operation) (n length : Z) :
  withRetain (before ++ [OpRetain n]) length = before ++ [OpRetain (n + length)].
Proof.
  unfold withRetain. rewrite rev_app_distr. simpl.
  rewrite rev_involutive. reflexivity.
Qed.

Lemma withRetain_after_other (before : list Operation) (op : Operation)
    (length : Z) :
  isRetain op = false ->
  withRetain (before ++ [op]) length = before ++ [op; OpRetain length].
Proof.
  intros H. unfold withRetain. rewrite rev_app_distr. simpl.
  destruct op; try discriminate; rewrite <- app_assoc; reflexivity.
Qed.

Lemma consumed_withRetain (ops : list Operation) (length : Z) :
  consumed (withRetain ops length) = consumed ops + length.
Proof.
  destruct (rev ops) as [|op before] eqn:E.
  - unfold withRetain. rewrite E, consumed_app. simpl. lia.
  - assert (Hops : ops = rev before ++ [op]).
    { rewrite <- (rev_involutive ops), E. reflexivity. }
    unfold withRetain. rewrite E.
    destruct op; rewrite Hops, !consumed_app; simpl; lia.
Qed.

Lemma replaces_withRetain (ops : list Operation) (length : Z) :
  replaces (withRetain ops length) = replaces ops.
Proof.
  destruct (rev ops) as [|op before] eqn:E.
  - unfold withRetain. rewrite E, replaces_app. simpl. apply app_nil_r.
  - assert (Hops : ops = rev before ++ [op]).
    { rewrite <- (rev_involutive ops), E. reflexivity. }
    unfold withRetain. rewrite E.
    destruct op; rewrite Hops, !replaces_app; simpl;
      rewrite ?app_nil_r; reflexivity.
Qed.

(** After anything but a retain, [pushRetain] records its own retain. *)
Lemma pushRetain_fresh (n : Z) (tx : Transaction) :
  0 <= n ->
  endsWithRetain (operations tx) = false ->
  pushRetain n tx =
  Ok (tt, {| operations := operations tx ++ retainOps n;
             lengthDifference := lengthDifference tx |}).
Proof.
  intros Hn Hends. unfold retainOps.
  destruct (Z.eqb_spec n 0) as [-> | Hnz].
  - rewrite pushRetain_zero, app_nil_r. destruct tx; reflexivity.
  - rewrite pushRetain_positive by lia. unfold withRetain.
    unfold endsWithRetain in Hends.
    destruct (rev (operations tx)) as [|[] before];
      try discriminate; reflexivity.
Qed.

Lemma endsWithRetain_snoc (ops : list Operation) (op : Operation) :
  endsWithRetain (ops ++ [op]) = isRetain op.
Proof.
  unfold endsWithRetain. rewrite rev_app_distr. simpl.
  destruct op; reflexivity.
Qed.

(** *** [pushReplace] case by case *)

Lemma pushReplace_empty (tx : Transaction) : pushReplace [] [] tx = Ok (tt, tx).
Proof. reflexivity. Qed.

Lemma pushReplace_nonempty (remove insert : list Item) (tx : Transaction) :
  remove <> [] \/ insert <> [] ->
  pushReplace remove insert tx =
  Ok (tt, {| operations := operations tx ++ [OpReplace remove insert];
             lengthDifference :=
               lengthDifference tx + (len insert - len remove) |}).
Proof.
  intros H. unfold pushReplace. rewrite !len_eqb_zero.
  destruct remove, insert; try reflexivity.
  destruct H as [H|H]; contradiction H; reflexivity.
Qed.

(** *** The retain / replace / retain pattern

    Three of the builders end with the same three calls.  Pushed on a fresh
    transaction they leave the intended triple as it is recorded. *)

Lemma recorded_triple_positive (a b : Z) (remove insert : list Item) :
  0 < a -> 0 < b -> remove <> [] \/ insert <> [] ->
  recorded [OpRetain a; OpReplace remove insert; OpRetain b] =
  [OpRetain a; OpReplace remove insert; OpRetain b].
Proof.
  intros Ha Hb H. simpl.
  replace (a =? 0) with false by (symmetry; apply Z.eqb_neq; lia).
  replace (b =? 0) with false by (symmetry; apply Z.eqb_neq; lia).
  destruct remove, insert; try reflexivity.
  destruct H as [H|H]; contradiction H; reflexivity.
Qed.

Lemma retain_replace_retain (a b : Z) (remove insert : list Item) :
  0 <= a -> 0 <= b ->
  (pushRetain a ;; pushReplace remove insert ;; pushRetain b) newTransaction =
  Ok (tt, {| operations :=
               recorded [OpRetain a; OpReplace remove insert; OpRetain b];
             lengthDifference := len insert - len remove |}).
Proof.
  intros Ha Hb. unfold bind.
  assert (Hcases : forall x, 0 <= x -> x = 0 \/ (0 < x /\ (x =? 0) = false)).
  { intros x Hx. destruct (Z.eqb_spec x 0); [left | right; split]; lia. }
  destruct (Hcases a Ha) as [-> | [Ha' Ea]];
    destruct (Hcases b Hb) as [-> | [Hb' Eb]];
    destruct remove as [|r remove], insert as [|i insert];
    repeat first
      [ rewrite pushRetain_zero
      | rewrite pushReplace_empty
      | rewrite pushRetain_positive by assumption
      | rewrite pushReplace_nonempty by (left; discriminate)
      | rewrite pushReplace_nonempty by (right; discriminate) ];
    simpl; rewrite ?Ea, ?Eb; reflexivity.
Qed.

(** ** Operation accumulation (claim C9) *)

Section Accumulation.

Variable tx : Transaction.

(** C9.  [pushRetain] throws on every negative length, leaves the
    transaction untouched for length 0, and adds a positive length to a
    trailing retain instead of appending a second one (it appends a new
    retain when the list is empty or ends with another kind of
    operation).  [pushReplace] with two empty arrays leaves the transaction
    untouched; otherwise it appends exactly one replace and adds
    [insert.length - remove.length] to [lengthDifference]. *)
Theorem push_accumulation
    (length n : Z) (before : list Operation) (op : Operation)
    (remove insert : list Item) :
  (length < 0 -> pushRetain length tx = Err (InvalidRetain length)) /\
  pushRetain 0 tx = Ok (tt, tx) /\
  (0 < length -> operations tx = before ++ [OpRetain n] ->
     pushRetain length tx =
     Ok (tt, {| operations := before ++ [OpRetain (n + length)];
                lengthDifference := lengthDifference tx |})) /\
  (0 < length ->
     operations tx = [] \/
     (operations tx = before ++ [op] /\ isRetain op = false) ->
     pushRetain length tx =
     Ok (tt, {| operations := operations tx ++ [OpRetain length];
                lengthDifference := lengthDifference tx |})) /\
  pushReplace [] [] tx = Ok (tt, tx) /\
  (remove <> [] \/ insert <> [] ->
     pushReplace remove insert tx =
     Ok (tt, {| operations := operations tx ++ [OpReplace remove insert];
                lengthDifference :=
                  lengthDifference tx + (len insert - len remove) |})).
Proof.
  repeat split.
  - apply pushRetain_negative.
  - intros Hpos Hops.
    rewrite pushRetain_positive, Hops, withRetain_after_retain by assumption.
    reflexivity.
  - intros Hpos [Hops | [Hops Hop]].
    + rewrite pushRetain_positive, Hops by assumption. reflexivity.
    + rewrite pushRetain_positive, Hops by assumption.
      rewrite withRetain_after_other by assumption.
      rewrite <- app_assoc. reflexivity.
  - apply pushReplace_nonempty.
Qed.

End Accumulation.

(** [push_accumulation] at work: a negative retain, a retain after a retain,
    a retain after a replace, and a replace that removes one item. *)
Lemma push_accumulation_witness :
  pushRetain (-1) newTransaction = Err (InvalidRetain (-1)) /\
  errorMessage (InvalidRetain (-1)) =
    "Invalid retain length, can not retain backwards:-1"%string /\
  pushRetain 3 {| operations := [OpRetain 2]; lengthDifference := 0 |} =
    Ok (tt, {| operations := [OpRetain 5]; lengthDifference := 0 |}) /\
  pushRetain 3 {| operations := [OpReplace [IContent "a" []] []];
                  lengthDifference := -1 |} =
    Ok (tt, {| operations := [OpReplace [IContent "a" []] []; OpRetain 3];
               lengthDifference := -1 |}) /\
  pushReplace [IContent "a" []] [] newTransaction =
    Ok (tt, {| operations := [OpReplace [IContent "a" []] []];
               lengthDifference := -1 |}).
Proof.
  split; [|split; [reflexivity|split; [|split]]].
  - apply (push_accumulation newTransaction (-1) 0 [] (OpRetain 0) [] []).
    lia.
  - apply (push_accumulation
             {| operations := [OpRetain 2]; lengthDifference := 0 |}
             3 2 [] (OpRetain 0) [] []).
    + lia.
    + reflexivity.
  - apply (push_accumulation
             {| operations := [OpReplace [IContent "a" []] []];
                lengthDifference := -1 |}
             3 0 [] (OpReplace [IContent "a" []] []) [] []).
    + lia.
    + right. split; reflexivity.
  - apply (push_accumulation newTransaction 1 0 [] (OpRetain 0)
             [IContent "a" []] []).
    left. discriminate.
Defined.

(** ** [newFromInsertion] (claim C2) *)

Section Insertion.

Variable doc : Document.

Let data := getData doc.

(** C2.  On the one-paragraph document [[<paragraph>, 'a', </paragraph>]],
    when the fix-up leaves [['b']] alone, inserting [['b']] at offset 2
    gives exactly [retain 2, replace [] ['b'], retain 1] with
    [lengthDifference] 1.  In general, for an offset inside the document,
    the builder emits [retain offset], [replace [] fixed], [retain
    (length - offset)] with [fixed] the fixed-up insertion: the transaction
    holds that triple as recorded (no zero-length retain, no empty
    replace), which is the triple itself when nothing in it is empty. *)
Theorem newFromInsertion_operations (offset : Z) (insertion : list Item) :
  let fixed := fixupInsertion doc insertion offset in
  (data = paragraphData ->
   fixupInsertion doc [IContent "b" []] 2 = [IContent "b" []] ->
   newFromInsertion doc 2 [IContent "b" []] =
   Ok {| operations :=
           [OpRetain 2; OpReplace [] [IContent "b" []]; OpRetain 1];
         lengthDifference := 1 |}) /\
  (0 <= offset <= len data ->
   newFromInsertion doc offset insertion =
   Ok {| operations :=
           recorded [OpRetain offset; OpReplace [] fixed;
                     OpRetain (len data - offset)];
         lengthDifference := len fixed |}) /\
  (0 < offset < len data -> fixed <> [] ->
   newFromInsertion doc offset insertion =
   Ok {| operations :=
           [OpRetain offset; OpReplace [] fixed;
            OpRetain (len data - offset)];
         lengthDifference := len fixed |}).
Proof.
  intros fixed.
  assert (General : 0 <= offset <= len data ->
            newFromInsertion doc offset insertion =
            Ok {| operations :=
                    recorded [OpRetain offset; OpReplace [] fixed;
                              OpRetain (len data - offset)];
                  lengthDifference := len fixed |}).
  { intros Hoff. unfold newFromInsertion, build.
    fold data. fold fixed.
    rewrite retain_replace_retain by lia.
    rewrite len_nil, Z.sub_0_r. reflexivity. }
  split; [|split].
  - intros Hdata Hfix. unfold newFromInsertion, build.
    fold data. rewrite Hdata, Hfix. reflexivity.
  - exact General.
  - intros Hoff Hfixed. rewrite General by lia.
    rewrite recorded_triple_positive; try lia; [reflexivity|].
    right. exact Hfixed.
Qed.

End Insertion.

(** [newFromInsertion_operations] on the paragraph document of the example. *)
Lemma newFromInsertion_operations_witness :
  newFromInsertion paragraphDocument 2 [IContent "b" []] =
  Ok {| operations := [OpRetain 2; OpReplace [] [IContent "b" []]; OpRetain 1];
        lengthDifference := 1 |} /\
  newFromInsertion paragraphDocument 1 [IContent "b" []] =
  Ok {| operations := [OpRetain 1; OpReplace [] [IContent "b" []]; OpRetain 2];
        lengthDifference := 1 |} /\
  newFromInsertion paragraphDocument 3 [] =
  Ok {| operations := [OpRetain 3]; lengthDifference := 0 |}.
Proof.
  split; [|split].
  - apply (proj1 (newFromInsertion_operations paragraphDocument 2
                    [IContent "b" []])); reflexivity.
  - apply (proj2 (proj2 (newFromInsertion_operations paragraphDocument 1
                           [IContent "b" []]))).
    + vm_compute. split; reflexivity.
    + discriminate.
  - apply (proj1 (proj2 (newFromInsertion_operations paragraphDocument 3 []))).
    vm_compute. split; discriminate.
Defined.

(** ** [newFromRemoval]: empty range and empty selection (claims C3, C5) *)

Section RemovalEdges.

Variable doc : Document.
Variable range : Range.

Let data := getData doc.
Let normalized := normalize range.

(** C3, as amended.  For an empty range the builder returns a transaction
    with [lengthDifference] 0 whose operations are a single retain of the
    whole document when the document has data, and no operation at all
    when the data is empty. *)
Theorem newFromRemoval_empty_range :
  start normalized = end_ normalized ->
  newFromRemoval doc range =
    Ok {| operations := retainOps (len data); lengthDifference := 0 |} /\
  (data <> [] ->
   newFromRemoval doc range =
     Ok {| operations := [OpRetain (len data)]; lengthDifference := 0 |}) /\
  (data = [] -> newFromRemoval doc range = Ok newTransaction).
Proof.
  intros Hempty.
  assert (Hrun : newFromRemoval doc range =
                 Ok {| operations := retainOps (len data);
                       lengthDifference := 0 |}).
  { unfold newFromRemoval, build. fold data. fold normalized.
    apply Z.eqb_eq in Hempty. rewrite Hempty.
    unfold retainOps.
    destruct (Z.eqb_spec (len data) 0) as [E | E].
    - rewrite E. reflexivity.
    - rewrite pushRetain_positive
        by (pose proof (len_nonneg data); lia).
      reflexivity. }
  split; [exact Hrun | split].
  - intros Hdata. rewrite Hrun. unfold retainOps.
    rewrite len_eqb_zero. destruct data; [contradiction|reflexivity].
  - intros Hdata. rewrite Hrun, Hdata. reflexivity.
Qed.

(** C5.  A range that is not empty once normalized and for which
    [selectNodes( range, 'covered' )] answers the empty list makes the
    builder throw the invalid-range error carrying the two bounds: the
    result is the error, not a transaction. *)
Theorem newFromRemoval_empty_selection :
  start normalized <> end_ normalized ->
  selectNodes doc normalized "covered" = [] ->
  newFromRemoval doc range =
    Err (InvalidRange (start normalized) (end_ normalized)).
Proof.
  intros Hne Hsel. unfold newFromRemoval, build.
  fold normalized. apply Z.eqb_neq in Hne. rewrite Hne, Hsel.
  reflexivity.
Qed.

End RemovalEdges.

(** [newFromRemoval_empty_range] on the paragraph document and on the
    empty document. *)
Lemma newFromRemoval_empty_range_witness :
  newFromRemoval paragraphDocument {| start := 1; end_ := 1 |} =
    Ok {| operations := [OpRetain 3]; lengthDifference := 0 |} /\
  newFromRemoval emptyDocument {| start := 0; end_ := 0 |} =
    Ok newTransaction.
Proof.
  split.
  - apply (proj1 (proj2 (newFromRemoval_empty_range paragraphDocument
                           {| start := 1; end_ := 1 |} eq_refl))).
    discriminate.
  - apply (proj2 (proj2 (newFromRemoval_empty_range emptyDocument
                           {| start := 0; end_ := 0 |} eq_refl))).
    reflexivity.
Defined.

(** The claim C3 as it is written fails on the empty document: the builder
    calls [pushRetain( 0 )], which records nothing, so the transaction has no
    operation instead of a single retain. *)
Lemma newFromRemoval_empty_document_no_retain :
  start (normalize {| start := 0; end_ := 0 |}) =
    end_ (normalize {| start := 0; end_ := 0 |}) /\
  newFromRemoval emptyDocument {| start := 0; end_ := 0 |} =
    Ok {| operations := []; lengthDifference := 0 |} /\
  ~ (exists n,
       newFromRemoval emptyDocument {| start := 0; end_ := 0 |} =
       Ok {| operations := [OpRetain n]; lengthDifference := 0 |}).
Proof.
  split; [reflexivity | split; [reflexivity|]].
  intros [n H]. discriminate H.
Qed.

(** [newFromRemoval_empty_selection] on the paragraph document, whose
    [selectNodes] selects nothing; the range is given backwards.  The
    message thrown names the normalized bounds. *)
Lemma newFromRemoval_empty_selection_witness :
  newFromRemoval paragraphDocument {| start := 2; end_ := 1 |} =
    Err (InvalidRange 1 2) /\
  errorMessage (InvalidRange 1 2) =
    "Invalid range, cannot remove from 1 to 2"%string.
Proof.
  split; [|reflexivity].
  apply (newFromRemoval_empty_selection paragraphDocument
           {| start := 2; end_ := 1 |}).
  - discriminate.
  - reflexivity.
Defined.

(** ** [newFromAttributeChange] (claim C7) *)

(** An offset at which the data holds an item lies inside the data. *)
Lemma index_defined (data : list Item) (i : Z) :
  index data i <> IUndefined -> 0 <= i < len data.
Proof.
  unfold index, len. intros H.
  destruct (Z.ltb_spec i 0) as [Hneg | Hpos]; [contradiction H; reflexivity|].
  split; [assumption|].
  destruct (Nat.lt_ge_cases (Z.to_nat i) (List.length data)) as [Hlt | Hge].
  - lia.
  - contradiction H. apply nth_overflow. assumption.
Qed.

Section AttributeChange.

Variable doc : Document.
Variable offset : Z.
Variable key : string.
Variable value : Value.

Let data := getData doc.

(** C7, as amended.  Where the data has no item at [offset] (an offset
    below 0 or from the length on) the builder fails with the engine's
    TypeError, reading [type] of [undefined]; when the item is content (it
    has no [type]) it throws the not-an-element error; when it is an element
    whose type begins with '/' it throws the closing-element error;
    otherwise [offset] is inside the data and the builder returns the
    transaction made of the retain of [offset], recorded only when [offset]
    is not 0, the attribute change from [attributes[key]] ([undefined] when
    the element has no [attributes]) to [value], and the retain of
    [length - offset]. *)
Theorem newFromAttributeChange_outcomes :
  (offset < 0 \/ len data <= offset \/ index data offset = IUndefined ->
   newFromAttributeChange doc offset key value = Err TypeError) /\
  (forall character annotations,
     index data offset = IContent character annotations ->
     newFromAttributeChange doc offset key value = Err NotAnElement) /\
  (forall rest attributes,
     index data offset = IElement (String "/" rest) attributes ->
     newFromAttributeChange doc offset key value = Err ClosingElement) /\
  (forall type attributes,
     index data offset = IElement type attributes ->
     isClosingType type = false ->
     let change :=
       OpAttribute key
         match attributes with
         | Some attributes => getProperty attributes key
         | None => VUndefined
         end
         value in
     0 <= offset < len data /\
     (offset = 0 ->
      newFromAttributeChange doc offset key value =
      Ok {| operations := [change; OpRetain (len data)];
            lengthDifference := 0 |}) /\
     (offset <> 0 ->
      newFromAttributeChange doc offset key value =
      Ok {| operations :=
              [OpRetain offset; change; OpRetain (len data - offset)];
            lengthDifference := 0 |})).
Proof.
  split; [|split; [|split]].
  - intros Hnone.
    assert (Hitem : index data offset = IUndefined).
    { destruct Hnone as [Hneg | [Hpast | Hhole]]; [| |exact Hhole].
      - unfold index. destruct (Z.ltb_spec offset 0); [reflexivity | lia].
      - unfold index, len in *.
        destruct (Z.ltb_spec offset 0); [reflexivity|].
        apply nth_overflow. lia. }
    unfold newFromAttributeChange, build, bind, lift. fold data.
    rewrite Hitem. reflexivity.
  - intros character annotations Hitem.
    unfold newFromAttributeChange, build, bind, lift. fold data.
    rewrite Hitem. reflexivity.
  - intros rest attributes Hitem.
    unfold newFromAttributeChange, build, bind, lift. fold data.
    rewrite Hitem. reflexivity.
  - intros type attributes Hitem Hopen change.
    assert (Hin : 0 <= offset < len data).
    { apply index_defined. rewrite Hitem. discriminate. }
    split; [exact Hin | split].
    + intros E. subst offset change.
      unfold newFromAttributeChange, build, bind, lift. fold data.
      rewrite Hitem. simpl itemType. cbv iota. rewrite Hopen.
      rewrite pushRetain_zero.
      unfold pushReplaceElementAttribute.
      rewrite pushRetain_positive by lia.
      rewrite Z.sub_0_r.
      destruct attributes; reflexivity.
    + intros E. subst change.
      unfold newFromAttributeChange, build, bind, lift. fold data.
      rewrite Hitem. simpl itemType. cbv iota. rewrite Hopen.
      rewrite pushRetain_positive by lia.
      unfold pushReplaceElementAttribute.
      rewrite pushRetain_positive by lia.
      destruct attributes; reflexivity.
Qed.

End AttributeChange.

(** [newFromAttributeChange_outcomes] on the heading document, whose data
    has six items: no item at offsets 6 and -1, content at offset 1, a
    closing marker at offset 2, the heading at offset 3 and the paragraph,
    which has no attributes, at offset 0.  The heading has no 'constructor'
    of its own, so that key reads the inherited one. *)
Lemma newFromAttributeChange_outcomes_witness :
  newFromAttributeChange headingDocument 6 "level" (VNum 2) =
    Err TypeError /\
  newFromAttributeChange headingDocument (-1) "level" (VNum 2) =
    Err TypeError /\
  newFromAttributeChange headingDocument 1 "level" (VNum 2) =
    Err NotAnElement /\
  newFromAttributeChange headingDocument 2 "level" (VNum 2) =
    Err ClosingElement /\
  newFromAttributeChange headingDocument 3 "level" (VNum 2) =
    Ok {| operations :=
            [OpRetain 3; OpAttribute "level" (VNum 1) (VNum 2); OpRetain 3];
          lengthDifference := 0 |} /\
  newFromAttributeChange headingDocument 3 "constructor" (VNum 2) =
    Ok {| operations :=
            [OpRetain 3;
             OpAttribute "constructor" (VInherited "constructor") (VNum 2);
             OpRetain 3];
          lengthDifference := 0 |} /\
  newFromAttributeChange headingDocument 0 "level" (VNum 2) =
    Ok {| operations :=
            [OpAttribute "level" VUndefined (VNum 2); OpRetain 6];
          lengthDifference := 0 |}.
Proof.
  pose (outcomes := fun offset key =>
    newFromAttributeChange_outcomes headingDocument offset key (VNum 2)).
  split; [|split; [|split; [|split; [|split; [|split]]]]].
  - apply (proj1 (outcomes 6 "level"%string)).
    right. left. discriminate.
  - apply (proj1 (outcomes (-1) "level"%string)).
    left. reflexivity.
  - apply (proj1 (proj2 (outcomes 1 "level"%string)) "a"%string []).
    reflexivity.
  - apply (proj1 (proj2 (proj2 (outcomes 2 "level"%string)))
             "paragraph"%string None).
    reflexivity.
  - apply (proj2 (proj2 (proj2 (proj2 (proj2 (outcomes 3 "level"%string)))
                           "heading"%string
                           (Some [("level"%string, VNum 1)])
                           eq_refl eq_refl))).
    discriminate.
  - apply (proj2 (proj2 (proj2 (proj2 (proj2
                           (outcomes 3 "constructor"%string)))
                           "heading"%string
                           (Some [("level"%string, VNum 1)])
                           eq_refl eq_refl))).
    discriminate.
  - apply (proj1 (proj2 (proj2 (proj2 (proj2 (outcomes 0 "level"%string)))
                           "paragraph"%string None eq_refl eq_refl))).
    reflexivity.
Defined.

(** The claim C7 as it is written fails twice on the heading document.  At
    offset 6, past the last item, there is no item whose [type] could be
    looked at: the builder fails with the TypeError, which is neither of the
    two errors of the claim, and returns no transaction.  At offset 0, on
    the opening of the paragraph, [pushRetain( 0 )] records nothing: the
    transaction starts with the attribute change and has no retain of
    [offset] before it. *)
Lemma newFromAttributeChange_outside_data_or_at_zero :
  (index (getData headingDocument) 6 = IUndefined /\
   newFromAttributeChange headingDocument 6 "level" (VNum 2) =
     Err TypeError /\
   newFromAttributeChange headingDocument 6 "level" (VNum 2) <>
     Err NotAnElement /\
   newFromAttributeChange headingDocument 6 "level" (VNum 2) <>
     Err ClosingElement /\
   ~ (exists tx,
        newFromAttributeChange headingDocument 6 "level" (VNum 2) =
        Ok tx)) /\
  (index (getData headingDocument) 0 = IElement "paragraph" None /\
   isClosingType "paragraph" = false /\
   newFromAttributeChange headingDocument 0 "level" (VNum 2) =
     Ok {| operations :=
             [OpAttribute "level" VUndefined (VNum 2); OpRetain 6];
           lengthDifference := 0 |} /\
   ~ (exists from,
        newFromAttributeChange headingDocument 0 "level" (VNum 2) =
        Ok {| operations :=
                [OpRetain 0; OpAttribute "level" from (VNum 2);
                 OpRetain 6];
              lengthDifference := 0 |})).
Proof.
  split.
  - split; [reflexivity|]. split; [reflexivity|].
    split; [discriminate|]. split; [discriminate|].
    intros [tx H]. discriminate H.
  - split; [reflexivity|]. split; [reflexivity|]. split; [reflexivity|].
    intros [from H]. discriminate H.
Qed.

(** ** What a successful push does to the measures of a transaction

    For the invariants of the builders it is enough to know how each push
    method moves three measures: the items walked over, the replaces
    recorded and [lengthDifference]. *)

Lemma bind_Ok (A B : Type) (m : M A) (k : A -> M B) (tx : Transaction)
    (r : B * Transaction) :
  bind m k tx = Ok r ->
  exists a tx1, m tx = Ok (a, tx1) /\ k a tx1 = Ok r.
Proof.
  unfold bind. destruct (m tx) as [[a tx1] | e]; [|discriminate].
  intros H. exists a, tx1. split; [reflexivity | exact H].
Qed.

Lemma ret_Ok (A : Type) (a b : A) (tx tx' : Transaction) :
  ret a tx = Ok (b, tx') -> a = b /\ tx = tx'.
Proof. unfold ret. intros H. injection H as -> ->. split; reflexivity. Qed.

Lemma lift_Ok (A : Type) (r : Result A) (a : A) (tx tx' : Transaction) :
  lift r tx = Ok (a, tx') -> r = Ok a /\ tx = tx'.
Proof.
  unfold lift. destruct r; [|discriminate].
  intros H. injection H as -> ->. split; reflexivity.
Qed.

Lemma pushRetain_Ok (length : Z) (tx tx' : Transaction) (u : unit) :
  pushRetain length tx = Ok (u, tx') ->
  0 <= length /\
  consumed (operations tx') = consumed (operations tx) + length /\
  replaces (operations tx') = replaces (operations tx) /\
  lengthDifference tx' = lengthDifference tx.
Proof.
  intros H.
  destruct (Z.lt_trichotomy length 0) as [Hneg | [-> | Hpos]].
  - rewrite pushRetain_negative in H by assumption. discriminate.
  - rewrite pushRetain_zero in H. injection H as _ <-.
    repeat split; lia.
  - rewrite pushRetain_positive in H by assumption. injection H as _ <-.
    simpl. rewrite consumed_withRetain, replaces_withRetain.
    repeat split; lia.
Qed.

Lemma pushReplace_Ok (remove insert : list Item) (tx tx' : Transaction)
    (u : unit) :
  pushReplace remove insert tx = Ok (u, tx') ->
  consumed (operations tx') = consumed (operations tx) + len remove /\
  lengthDifference tx' = lengthDifference tx + (len insert - len remove).
Proof.
  unfold pushReplace. rewrite !len_eqb_zero.
  destruct remove as [|r remove], insert as [|i insert]; simpl;
    intros H; injection H as _ <-; simpl;
    rewrite ?consumed_app; simpl; rewrite ?len_nil; lia.
Qed.

Lemma pushReplaceElementAttribute_Ok (key : string) (from to : Value)
    (tx tx' : Transaction) (u : unit) :
  pushReplaceElementAttribute key from to tx = Ok (u, tx') ->
  consumed (operations tx') = consumed (operations tx) /\
  replaces (operations tx') = replaces (operations tx) /\
  lengthDifference tx' = lengthDifference tx.
Proof.
  unfold pushReplaceElementAttribute. intros H. injection H as _ <-. simpl.
  rewrite consumed_app, replaces_app. simpl. rewrite app_nil_r.
  repeat split; lia.
Qed.

Lemma pushStartAnnotating_Ok (method : string) (annotation : Value)
    (tx tx' : Transaction) (u : unit) :
  pushStartAnnotating method annotation tx = Ok (u, tx') ->
  consumed (operations tx') = consumed (operations tx) /\
  replaces (operations tx') = replaces (operations tx) /\
  lengthDifference tx' = lengthDifference tx.
Proof.
  unfold pushStartAnnotating. intros H. injection H as _ <-. simpl.
  rewrite consumed_app, replaces_app. simpl. rewrite app_nil_r.
  repeat split; lia.
Qed.

Lemma pushStopAnnotating_Ok (method : string) (annotation : Value)
    (tx tx' : Transaction) (u : unit) :
  pushStopAnnotating method annotation tx = Ok (u, tx') ->
  consumed (operations tx') = consumed (operations tx) /\
  replaces (operations tx') = replaces (operations tx) /\
  lengthDifference tx' = lengthDifference tx.
Proof.
  unfold pushStopAnnotating. intros H. injection H as _ <-. simpl.
  rewrite consumed_app, replaces_app. simpl. rewrite app_nil_r.
  repeat split; lia.
Qed.

Lemma build_Ok (body : M unit) (tx : Transaction) :
  build body = Ok tx -> exists u, body newTransaction = Ok (u, tx).
Proof.
  unfold build. destruct (body newTransaction) as [[u tx1] | e];
    [|discriminate].
  intros H. injection H as ->. exists u. reflexivity.
Qed.

(** Take apart every successful monadic computation among the hypotheses. *)
Ltac tx_inversion :=
  repeat match goal with
    | H : bind _ _ _ = Ok _ |- _ =>
        let a := fresh "a" in
        let tx1 := fresh "tx" in
        let H1 := fresh "Hrun" in
        let H2 := fresh "Hrun" in
        apply bind_Ok in H; destruct H as (a & tx1 & H1 & H2)
    | H : ret _ _ = Ok _ |- _ =>
        apply ret_Ok in H; destruct H; subst
    | H : lift _ _ = Ok _ |- _ =>
        apply lift_Ok in H; destruct H; subst
    | H : throw _ _ = Ok _ |- _ => discriminate H
    | H : pushRetain _ _ = Ok _ |- _ =>
        apply pushRetain_Ok in H; destruct H as (? & ? & ? & ?)
    | H : pushReplace _ _ _ = Ok _ |- _ =>
        apply pushReplace_Ok in H; destruct H as (? & ?)
    | H : pushReplaceElementAttribute _ _ _ _ = Ok _ |- _ =>
        apply pushReplaceElementAttribute_Ok in H; destruct H as (? & ? & ?)
    | H : pushStartAnnotating _ _ _ = Ok _ |- _ =>
        apply pushStartAnnotating_Ok in H; destruct H as (? & ? & ?)
    | H : pushStopAnnotating _ _ _ = Ok _ |- _ =>
        apply pushStopAnnotating_Ok in H; destruct H as (? & ? & ?)
    end.

Ltac pair_inversion :=
  repeat match goal with
    | E : (_, _) = (_, _) |- _ => injection E as ? ?; subst
    end.

(** *** The annotation loop *)

Section AnnotationMeasures.

Variable doc : Document.
Variable method : string.
Variable annotation : Value.

(** The loop never records a replace, never touches [lengthDifference],
    and what it has retained plus the running [span] grows by one item per
    iteration. *)
Lemma annotationLoop_measures (steps : nat) :
  forall (i span : Z) (on : bool) (tx tx' : Transaction)
         (span' : Z) (on' : bool),
    annotationLoop doc method annotation steps i span on tx =
      Ok ((span', on'), tx') ->
    consumed (operations tx') + span' =
      consumed (operations tx) + span + Z.of_nat steps /\
    replaces (operations tx') = replaces (operations tx) /\
    lengthDifference tx' = lengthDifference tx.
Proof.
  induction steps as [|steps IH]; intros i span on tx tx' span' on' H.
  - simpl in H. apply ret_Ok in H. destruct H as [E ->].
    injection E as -> ->. repeat split; lia.
  - simpl annotationLoop in H.
    apply bind_Ok in H. destruct H as (type & tx1 & Htype & H).
    apply lift_Ok in Htype. destruct Htype as [_ <-].
    apply bind_Ok in H. destruct H as ([span1 on1] & tx2 & Hstep & H).
    apply IH in H. destruct H as (Hc & Hr & Hd).
    assert (Hstep' :
      consumed (operations tx2) + span1 =
        consumed (operations tx) + span /\
      replaces (operations tx2) = replaces (operations tx) /\
      lengthDifference tx2 = lengthDifference tx).
    { destruct type as [type|].
      - destruct on; tx_inversion.
        + pair_inversion. repeat split; congruence || lia.
        + pair_inversion. repeat split; reflexivity.
      - destruct ((offsetContainsAnnotation doc i annotation
                   && String.eqb method "set")
                  || (negb (offsetContainsAnnotation doc i annotation)
                      && String.eqb method "clear"));
          destruct on; cbn [negb] in Hstep;
          tx_inversion; pair_inversion;
          repeat split; congruence || lia. }
    destruct Hstep' as (Hc1 & Hr1 & Hd1).
    repeat split; try congruence. lia.
Qed.

End AnnotationMeasures.

(** ** No replace in attribute changes and annotations (claim C10) *)

Lemma replaces_nil_Forall (ops : list Operation) :
  replaces ops = [] -> Forall (fun op => isReplace op = false) ops.
Proof.
  induction ops as [|op ops IH]; intros H; constructor.
  - unfold replaces in H. simpl in H.
    destruct (isReplace op); [discriminate | reflexivity].
  - apply IH. unfold replaces in *. simpl in H.
    destruct (isReplace op); [discriminate | assumption].
Qed.

Lemma replaces_nil_lengthDelta (ops : list Operation) :
  replaces ops = [] -> lengthDelta ops = 0.
Proof.
  induction ops as [|op ops IH]; intros H; [reflexivity|].
  unfold replaces in *. simpl in H.
  destruct op; simpl in *; try discriminate; apply IH; assumption.
Qed.

(** C10.  A transaction returned by [newFromAttributeChange] or by
    [newFromAnnotation] holds no replace operation, its [lengthDifference]
    is 0, and so is the length change its operations add up to. *)
Theorem attribute_and_annotation_record_no_replace
    (doc : Document) (tx : Transaction) :
  (exists offset key value,
     newFromAttributeChange doc offset key value = Ok tx) \/
  (exists range method annotation,
     newFromAnnotation doc range method annotation = Ok tx) ->
  replaces (operations tx) = [] /\
  Forall (fun op => isReplace op = false) (operations tx) /\
  lengthDifference tx = 0 /\
  lengthDelta (operations tx) = 0.
Proof.
  intros H.
  assert (Hmain : replaces (operations tx) = [] /\ lengthDifference tx = 0).
  { destruct H as [(offset & key & value & H) |
                   (range & method & annotation & H)].
    - unfold newFromAttributeChange in H.
      apply build_Ok in H. destruct H as [u H].
      apply bind_Ok in H. destruct H as (type & tx1 & Htype & H).
      apply lift_Ok in Htype. destruct Htype as [_ <-].
      destruct type as [type|]; [|discriminate H].
      destruct (isClosingType type); [discriminate H|].
      tx_inversion. simpl in *. split; congruence.
    - unfold newFromAnnotation in H.
      apply build_Ok in H. destruct H as [u H].
      apply bind_Ok in H. destruct H as ([span on] & tx1 & Hloop & H).
      apply annotationLoop_measures in Hloop.
      destruct Hloop as (_ & Hr & Hd).
      destruct on; tx_inversion; simpl in *; split; congruence. }
  destruct Hmain as [Hr Hd].
  repeat split; try assumption.
  - apply replaces_nil_Forall. assumption.
  - apply replaces_nil_lengthDelta. assumption.
Qed.

(** [attribute_and_annotation_record_no_replace] on an attribute change of
    the heading document and on an annotation of the bold document. *)
Lemma attribute_and_annotation_record_no_replace_witness :
  lengthDifference
    {| operations :=
         [OpRetain 3; OpAttribute "level" (VNum 1) (VNum 2); OpRetain 3];
       lengthDifference := 0 |} = 0 /\
  replaces
    [OpRetain 1; OpAnnotate "set" "start" bold; OpRetain 1;
     OpAnnotate "set" "stop" bold; OpRetain 1;
     OpAnnotate "set" "start" bold; OpRetain 1;
     OpAnnotate "set" "stop" bold; OpRetain 4] = [].
Proof.
  split.
  - apply (@attribute_and_annotation_record_no_replace headingDocument
             {| operations :=
                  [OpRetain 3; OpAttribute "level" (VNum 1) (VNum 2);
                   OpRetain 3];
                lengthDifference := 0 |}).
    left. exists 3, "level"%string, (VNum 2). reflexivity.
  - apply (@attribute_and_annotation_record_no_replace boldDocument
             {| operations :=
                  [OpRetain 1; OpAnnotate "set" "start" bold; OpRetain 1;
                   OpAnnotate "set" "stop" bold; OpRetain 1;
                   OpAnnotate "set" "start" bold; OpRetain 1;
                   OpAnnotate "set" "stop" bold; OpRetain 4];
                lengthDifference := 0 |}).
    right. exists {| start := 1; end_ := 4 |}, "set"%string, bold.
    reflexivity.
Defined.

(** ** [newFromRemoval]: the merge branch (claim C4) *)

Lemma recorded_removal (a b : Z) (remove : list Item) :
  remove <> [] ->
  recorded [OpRetain a; OpReplace remove []; OpRetain b] =
  retainOps a ++ OpReplace remove [] :: retainOps b.
Proof.
  intros H. unfold retainOps. simpl.
  destruct remove as [|r remove]; [contradiction H; reflexivity|].
  destruct (a =? 0), (b =? 0); reflexivity.
Qed.

Lemma replaces_retainOps (n : Z) : replaces (retainOps n) = [].
Proof. unfold retainOps. destruct (n =? 0); reflexivity. Qed.

Section RemovalMerge.

Variable doc : Document.
Variable removal : Range.
Variable first : Selected.
Variable rest : list Selected.

Let data := getData doc.
Let normalized := normalize removal.
Let selection := first :: rest.
Let last := List.last selection first.
Let removeStart := fst (mergeSpan first last).
Let removeEnd := snd (mergeSpan first last).

(** C4, as amended.  When the first and the last selected node can be
    merged, the builder removes one span, [data.slice( removeStart,
    removeEnd )]: from the first node's outer start to the last node's
    outer end when both are covered entirely, and otherwise from the start
    of the first node's covered range (of its inner range when it is
    covered entirely) to the end of the last node's covered range (of its
    inner range when it is covered entirely).  The transaction is the
    triple retain, replace, retain as recorded; when the span is not empty
    it holds exactly one replace. *)
Theorem newFromRemoval_merge :
  start normalized <> end_ normalized ->
  selectNodes doc normalized "covered" = selection ->
  canBeMergedWith doc (node first) (node last) = true ->
  0 <= removeStart -> removeEnd <= len data ->
  newFromRemoval doc removal =
    Ok {| operations :=
            recorded [OpRetain removeStart;
                      OpReplace (slice data removeStart removeEnd) [];
                      OpRetain (len data - removeEnd)];
          lengthDifference := - len (slice data removeStart removeEnd) |} /\
  (removeStart < removeEnd ->
   newFromRemoval doc removal =
     Ok {| operations :=
             retainOps removeStart
             ++ OpReplace (slice data removeStart removeEnd) []
                :: retainOps (len data - removeEnd);
           lengthDifference := - (removeEnd - removeStart) |} /\
   replaces
     (retainOps removeStart
      ++ OpReplace (slice data removeStart removeEnd) []
         :: retainOps (len data - removeEnd)) =
   [OpReplace (slice data removeStart removeEnd) []]) /\
  (range first = None -> range last = None ->
   removeStart = start (nodeOuterRange first) /\
   removeEnd = end_ (nodeOuterRange last)) /\
  (range first <> None \/ range last <> None ->
   removeStart = match range first with
                 | Some covered => start covered
                 | None => start (nodeRange first)
                 end /\
   removeEnd = match range last with
               | Some covered => end_ covered
               | None => end_ (nodeRange last)
               end).
Proof.
  intros Hne Hsel Hmerge Hstart Hend.
  assert (Hrun : newFromRemoval doc removal =
    Ok {| operations :=
            recorded [OpRetain removeStart;
                      OpReplace (slice data removeStart removeEnd) [];
                      OpRetain (len data - removeEnd)];
          lengthDifference := - len (slice data removeStart removeEnd) |}).
  { unfold newFromRemoval, build. fold data. fold normalized.
    apply Z.eqb_neq in Hne. rewrite Hne, Hsel.
    unfold selection. fold selection. fold last. rewrite Hmerge.
    subst removeStart removeEnd.
    destruct (mergeSpan first last) as [rs re]. simpl fst in *.
    simpl snd in *.
    rewrite retain_replace_retain by lia.
    rewrite len_nil. reflexivity. }
  split; [exact Hrun|]. split; [|split].
  - intros Hspan.
    assert (Hlen : len (slice data removeStart removeEnd)
                   = removeEnd - removeStart)
      by (apply len_slice; lia).
    split.
    + rewrite Hrun, recorded_removal, Hlen; [reflexivity|].
      intros E. rewrite E, len_nil in Hlen. lia.
    + rewrite replaces_app. simpl.
      rewrite !replaces_retainOps. reflexivity.
  - intros Hfirst Hlast. subst removeStart removeEnd.
    unfold mergeSpan. rewrite Hfirst, Hlast. split; reflexivity.
  - intros Hpartial. subst removeStart removeEnd.
    unfold mergeSpan, rangeOrNodeRange.
    destruct (range first), (range last); try (split; reflexivity).
    destruct Hpartial as [H | H]; contradiction H; reflexivity.
Qed.

End RemovalMerge.

(** [newFromRemoval_merge] on the two paragraphs: removing 2..6 merges them
    by one replace that takes away ['b', </paragraph>, <paragraph>, 'c'].
    And on the paragraph followed by an empty one: removing 0..5 starts at
    the inner start 1 of the covered first paragraph. *)
Lemma newFromRemoval_merge_witness :
  newFromRemoval twoParagraphsDocument {| start := 2; end_ := 6 |} =
    Ok {| operations :=
            [OpRetain 2;
             OpReplace [IContent "b" []; IElement "/paragraph" None;
                        IElement "paragraph" None; IContent "c" []] [];
             OpRetain 2];
          lengthDifference := -4 |} /\
  newFromRemoval emptySecondParagraphDocument {| start := 0; end_ := 5 |} =
    Ok {| operations :=
            [OpRetain 1;
             OpReplace [IContent "a" []; IContent "b" [];
                        IElement "/paragraph" None;
                        IElement "paragraph" None] [];
             OpRetain 1];
          lengthDifference := -4 |} /\
  fst (mergeSpan coveredFirstParagraph touchedSecondParagraph) = 1.
Proof.
  split; [|split].
  - refine (proj1 (proj1 (proj2 (@newFromRemoval_merge twoParagraphsDocument
                                   {| start := 2; end_ := 6 |}
                                   endOfFirstText [startOfSecondText]
                                   _ _ _ _ _)) _)).
    + discriminate.
    + reflexivity.
    + reflexivity.
    + discriminate.
    + discriminate.
    + reflexivity.
  - refine (proj1 (@newFromRemoval_merge emptySecondParagraphDocument
                     {| start := 0; end_ := 5 |}
                     coveredFirstParagraph [touchedSecondParagraph]
                     _ _ _ _ _)).
    + discriminate.
    + reflexivity.
    + reflexivity.
    + discriminate.
    + discriminate.
  - refine (proj1 (proj2 (proj2 (proj2
              (@newFromRemoval_merge emptySecondParagraphDocument
                 {| start := 0; end_ := 5 |}
                 coveredFirstParagraph [touchedSecondParagraph]
                 _ _ _ _ _))) _)).
    + discriminate.
    + reflexivity.
    + reflexivity.
    + discriminate.
    + discriminate.
    + right. discriminate.
Defined.

(** The claim C4 as it is written fails when the first node is covered
    entirely and the last one is not: the two paragraphs can be merged, the
    merge point worded for the first one is its outer start 0, yet the
    builder starts the removal at 1, the start of its inner range, and keeps
    the opening marker. *)
Lemma newFromRemoval_merge_keeps_opening_marker :
  selectNodes emptySecondParagraphDocument
    (normalize {| start := 0; end_ := 5 |}) "covered" =
    [coveredFirstParagraph; touchedSecondParagraph] /\
  canBeMergedWith emptySecondParagraphDocument
    (node coveredFirstParagraph) (node touchedSecondParagraph) = true /\
  outerMergeSpan coveredFirstParagraph touchedSecondParagraph = (0, 5) /\
  newFromRemoval emptySecondParagraphDocument {| start := 0; end_ := 5 |} =
    Ok {| operations :=
            [OpRetain 1;
             OpReplace (slice emptySecondParagraphData 1 5) [];
             OpRetain 1];
          lengthDifference := -4 |} /\
  ~ (exists tx,
       newFromRemoval emptySecondParagraphDocument
         {| start := 0; end_ := 5 |} = Ok tx /\
       replaces (operations tx) =
         [OpReplace (slice emptySecondParagraphData 0 5) []]).
Proof.
  split; [reflexivity|]. split; [reflexivity|]. split; [reflexivity|].
  split; [reflexivity|].
  intros (tx & Hrun & Hreplaces).
  vm_compute in Hrun. injection Hrun as <-.
  vm_compute in Hreplaces. discriminate Hreplaces.
Qed.

(** ** [newFromRemoval]: the loop over the selection (claim C6) *)

Lemma bind_assoc (A B C : Type) (m : M A) (k : A -> M B) (h : B -> M C)
    (tx : Transaction) :
  bind (bind m k) h tx = bind m (fun a => bind (k a) h) tx.
Proof. unfold bind. destruct (m tx) as [[a tx1] | e]; reflexivity. Qed.

Lemma bind_congruence (A B : Type) (m : M A) (k1 k2 : A -> M B)
    (tx : Transaction) :
  (forall a tx1, k1 a tx1 = k2 a tx1) -> bind m k1 tx = bind m k2 tx.
Proof.
  intros H. unfold bind. destruct (m tx) as [[a tx1] | e];
    [apply H | reflexivity].
Qed.

(** The first coalesced span starts where the first span starts. *)
Lemma coalesceSpans_head (s e : Z) (spans : list (Z * Z)) :
  exists e' more, coalesceSpans ((s, e) :: spans) = (s, e') :: more.
Proof.
  simpl. destruct (coalesceSpans spans) as [|[s' e'] more].
  - exists e, []. reflexivity.
  - destruct (e =? s').
    + exists e', more. reflexivity.
    + exists e, ((s', e') :: more). reflexivity.
Qed.

(** A span that ends where the next one starts is absorbed by it. *)
Lemma coalesceSpans_touching (s e e2 : Z) (spans : list (Z * Z)) :
  coalesceSpans ((s, e) :: (e, e2) :: spans) =
  coalesceSpans ((s, e2) :: spans).
Proof.
  destruct (coalesceSpans_head e e2 spans) as (e' & more & Hhead).
  change (coalesceSpans ((s, e) :: (e, e2) :: spans))
    with (match coalesceSpans ((e, e2) :: spans) with
          | (s', e') :: more =>
              if e =? s' then (s, e') :: more else (s, e) :: (s', e') :: more
          | [] => [(s, e)]
          end).
  rewrite Hhead, Z.eqb_refl.
  simpl in Hhead |- *.
  destruct (coalesceSpans spans) as [|[s' e''] more'].
  - injection Hhead as <- <-. reflexivity.
  - destruct (e2 =? s'); injection Hhead as <- <-; reflexivity.
Qed.

(** A span that ends elsewhere than the next one starts stays on its own. *)
Lemma coalesceSpans_apart (s e s2 e2 : Z) (spans : list (Z * Z)) :
  e <> s2 ->
  coalesceSpans ((s, e) :: (s2, e2) :: spans) =
  (s, e) :: coalesceSpans ((s2, e2) :: spans).
Proof.
  intros Hgap.
  destruct (coalesceSpans_head s2 e2 spans) as (e' & more & Hhead).
  change (coalesceSpans ((s, e) :: (s2, e2) :: spans))
    with (match coalesceSpans ((s2, e2) :: spans) with
          | (s', e') :: more =>
              if e =? s' then (s, e') :: more else (s, e) :: (s', e') :: more
          | [] => [(s, e)]
          end).
  rewrite Hhead. apply Z.eqb_neq in Hgap. rewrite Hgap. reflexivity.
Qed.

Section RemovalLoop.

Variable data : list Item.

(** The loop with a removal pending, followed by the last removal, emits
    the coalesced spans. *)
Lemma removalLoop_pending (selection : list Selected) :
  forall (offset removeStart removeEnd : Z) (tx : Transaction),
    bind (removalLoop data selection offset
            (Some (removeStart, removeEnd)))
         (applyLastRemoval data) tx =
    emitSpans data
      (coalesceSpans ((removeStart, removeEnd)
                      :: map removalSpan selection))
      offset tx.
Proof.
  induction selection as [|selected selection IH];
    intros offset removeStart removeEnd tx.
  - reflexivity.
  - simpl removalLoop. simpl map.
    destruct (removalSpan selected) as [nodeStart nodeEnd].
    destruct (Z.eqb_spec removeEnd nodeStart) as [E | E].
    + subst nodeStart. rewrite IH, coalesceSpans_touching. reflexivity.
    + rewrite coalesceSpans_apart by assumption.
      simpl emitSpans.
      rewrite bind_assoc. apply bind_congruence. intros _ tx1.
      rewrite bind_assoc. apply bind_congruence. intros _ tx2.
      apply IH.
Qed.

(** The whole loop, started as the builder starts it. *)
Lemma removalLoop_emitSpans (selection : list Selected) (tx : Transaction) :
  bind (removalLoop data selection 0 None) (applyLastRemoval data) tx =
  emitSpans data (coalesceSpans (map removalSpan selection)) 0 tx.
Proof.
  destruct selection as [|selected selection]; [reflexivity|].
  simpl removalLoop. simpl map.
  destruct (removalSpan selected) as [nodeStart nodeEnd].
  apply removalLoop_pending.
Qed.



End RemovalLoop.

Section RemovalMixed.

Variable doc : Document.
Variable range : Range.
Variable first : Selected.
Variable rest : list Selected.

Let data := getData doc.
Let normalized := normalize range.
Let selection := first :: rest.
Let last := List.last selection first.
Let spans := coalesceSpans (map removalSpan selection).


End RemovalMixed.


(** ** Every transaction walks over the whole document (claim C1) *)

Lemma coalesceSpans_forward (spans : list (Z * Z)) :
  Forall (fun span => fst span <= snd span) spans ->
  Forall (fun span => fst span <= snd span) (coalesceSpans spans).
Proof.
  induction spans as [|[s e] spans IH]; intros H; [constructor|].
  inversion H as [|? ? Hse Hrest]; subst. simpl in Hse.
  specialize (IH Hrest). simpl.
  destruct (coalesceSpans spans) as [|[s' e'] more].
  - constructor; [assumption | constructor].
  - inversion IH as [|? ? Hse' Hmore]; subst. simpl in Hse'.
    destruct (Z.eqb_spec e s') as [E | E].
    + constructor; [simpl; lia | assumption].
    + constructor; [assumption | constructor; assumption].
Qed.

(** Whatever forward spans are emitted, a successful run has walked from
    [offset] to the end of the data. *)
Lemma emitSpans_consumed (data : list Item) (spans : list (Z * Z)) :
  forall (offset : Z) (tx tx' : Transaction) (u : unit),
    0 <= offset ->
    Forall (fun span => fst span <= snd span) spans ->
    emitSpans data spans offset tx = Ok (u, tx') ->
    consumed (operations tx') = consumed (operations tx) + (len data - offset)
    /\ offset <= len data.
Proof.
  induction spans as [|[s e] spans IH]; intros offset tx tx' u Hoff Hfwd H.
  - simpl in H. tx_inversion. split; lia.
  - inversion Hfwd as [|? ? Hse Hrest]; subst. simpl in Hse.
    simpl in H. tx_inversion.
    match goal with
    | Hrec : emitSpans _ _ _ _ = Ok _ |- _ =>
        apply IH in Hrec; [destruct Hrec as [Hc Hin] | lia | assumption]
    end.
    assert (Hlen : len (slice data s e) = e - s) by (apply len_slice; lia).
    split; lia.
Qed.

Lemma conversionLoop_consumed (doc : Document) (opening closing : Item)
    (selection : list Selected) :
  let previousEnd (previous : option (Node * Range)) :=
    match previous with
    | Some (_, previousBranchOuterRange) => end_ previousBranchOuterRange
    | None => 0
    end in
  forall (previous previous' : option (Node * Range)) (tx tx' : Transaction),
    branchesMeasured doc selection = true ->
    conversionLoop doc opening closing selection previous tx =
      Ok (previous', tx') ->
    consumed (operations tx') - previousEnd previous' =
    consumed (operations tx) - previousEnd previous.
Proof.
  intros previousEnd.
  induction selection as [|selected selection IH];
    intros previous previous' tx tx' Hmeasured H.
  - simpl in H. apply ret_Ok in H. destruct H as [-> ->]. reflexivity.
  - simpl in Hmeasured. apply andb_prop in Hmeasured.
    destruct Hmeasured as [Hbranch Hrest].
    simpl in H.
    destruct (isContent doc (node selected)); [|apply IH; assumption].
    destruct (getParent doc (node selected)) as [branch|];
      [|discriminate H].
    apply Z.eqb_eq in Hbranch.
    match type of H with
    | (if ?c then _ else _) _ = _ => destruct c
    end; [apply IH; assumption|].
    tx_inversion.
    match goal with
    | Hrec : conversionLoop _ _ _ _ _ _ = Ok _ |- _ =>
        apply IH in Hrec; [|assumption]
    end.
    unfold previousEnd in *. simpl in *.
    rewrite !len_cons, !len_nil in *.
    destruct previous as [[previousBranch previousRange]|]; lia.
Qed.

(** C1.  For every call of a static builder against a document whose
    selections are consistent (the spans of a covered-mode selection run
    forward; a converted branch is as long as its outer range without its
    two markers), the transaction returned walks over the whole document:
    the lengths of its retains plus the lengths of the [remove] arrays of
    its replaces add up to the length of the document's data. *)
Theorem builders_cover_document
    (doc : Document) (call : BuilderCall) (tx : Transaction) :
  selectionConsistent doc call = true ->
  callBuilder doc call = Ok tx ->
  consumed (operations tx) = len (getData doc).
Proof.
  intros Hconsistent H.
  destruct call as [offset insertion | range | offset key value
                   | range method annotation | range type attr];
    simpl in Hconsistent, H.
  - (* newFromInsertion *)
    unfold newFromInsertion in H.
    apply build_Ok in H. destruct H as [u H].
    tx_inversion. simpl in *. rewrite len_nil in *. lia.
  - (* newFromRemoval *)
    unfold newFromRemoval in H.
    apply build_Ok in H. destruct H as [u H].
    destruct (start (normalize range) =? end_ (normalize range)).
    { tx_inversion. simpl in *. lia. }
    remember (selectNodes doc (normalize range) "covered") as selection
      eqn:Hsel.
    destruct selection as [|first rest]; [discriminate H|].
    unfold forwardSelection in Hconsistent.
    apply andb_prop in Hconsistent.
    destruct Hconsistent as [Hspans Hmerge].
    destruct (canBeMergedWith doc (node first)
                (node (List.last (first :: rest) first))).
    + apply Z.leb_le in Hmerge.
      destruct (mergeSpan first (List.last (first :: rest) first))
        as [removeStart removeEnd].
      simpl fst in Hmerge. simpl snd in Hmerge.
      tx_inversion. simpl in *.
      assert (Hlen : len (slice (getData doc) removeStart removeEnd)
                     = removeEnd - removeStart)
        by (apply len_slice; lia).
      lia.
    + change (bind (removalLoop (getData doc) (first :: rest) 0 None) _
                newTransaction)
        with (bind (removalLoop (getData doc) (first :: rest) 0 None)
                (applyLastRemoval (getData doc)) newTransaction) in H.
      rewrite removalLoop_emitSpans in H.
      apply emitSpans_consumed in H.
      * simpl in H. lia.
      * lia.
      * apply coalesceSpans_forward.
        rewrite forallb_forall in Hspans.
        apply Forall_forall. intros span Hin.
        apply in_map_iff in Hin. destruct Hin as (selected & <- & Hin).
        apply Z.leb_le. apply Hspans. assumption.
  - (* newFromAttributeChange *)
    unfold newFromAttributeChange in H.
    apply build_Ok in H. destruct H as [u H].
    apply bind_Ok in H. destruct H as (type' & tx1 & Htype & H).
    apply lift_Ok in Htype. destruct Htype as [_ <-].
    destruct type' as [type'|]; [|discriminate H].
    destruct (isClosingType type'); [discriminate H|].
    tx_inversion. simpl in *. lia.
  - (* newFromAnnotation *)
    unfold newFromAnnotation in H.
    apply build_Ok in H. destruct H as [u H].
    apply bind_Ok in H. destruct H as ([span on] & tx1 & Hloop & H).
    apply annotationLoop_measures in Hloop.
    destruct Hloop as (Hc & _ & _).
    assert (Hrange : start (normalize range) <= end_ (normalize range)).
    { unfold normalize.
      destruct (Z.ltb_spec (end_ range) (start range)); simpl; lia. }
    destruct on; tx_inversion; simpl in *; lia.
  - (* newFromContentBranchConversion *)
    unfold newFromContentBranchConversion in H.
    apply build_Ok in H. destruct H as [u H].
    apply bind_Ok in H. destruct H as (previous & tx1 & Hloop & H).
    apply conversionLoop_consumed in Hloop; [|assumption].
    tx_inversion. simpl in *. lia.
Qed.

(** [builders_cover_document] on one call of each builder (two for the
    removal: a merge and a mixed removal). *)
Lemma builders_cover_document_witness :
  (exists tx,
     callBuilder paragraphDocument (InsertionCall 2 [IContent "b" []]) = Ok tx
     /\ consumed (operations tx) = 3) /\
  (exists tx,
     callBuilder twoParagraphsDocument
       (RemovalCall {| start := 2; end_ := 6 |}) = Ok tx
     /\ consumed (operations tx) = 8) /\
  (exists tx,
     callBuilder mixedDocument
       (RemovalCall {| start := 2; end_ := 12 |}) = Ok tx
     /\ consumed (operations tx) = 14) /\
  (exists tx,
     callBuilder headingDocument
       (AttributeChangeCall 3 "level" (VNum 2)) = Ok tx
     /\ consumed (operations tx) = 6) /\
  (exists tx,
     callBuilder boldDocument
       (AnnotationCall {| start := 1; end_ := 4 |} "set" bold) = Ok tx
     /\ consumed (operations tx) = 8) /\
  (exists tx,
     callBuilder mixedDocument
       (ContentBranchConversionCall {| start := 2; end_ := 12 |}
          "preformatted" VUndefined) = Ok tx
     /\ operations tx =
        [OpReplace [IElement "heading" None]
                   [IElement "preformatted" None];
         OpRetain 2;
         OpReplace [IElement "/heading" None]
                   [IElement "/preformatted" None];
         OpReplace [IElement "paragraph" None]
                   [IElement "preformatted" None];
         OpRetain 1;
         OpReplace [IElement "/paragraph" None]
                   [IElement "/preformatted" None];
         OpReplace [IElement "paragraph" None]
                   [IElement "preformatted" None];
         OpRetain 1;
         OpReplace [IElement "/paragraph" None]
                   [IElement "/preformatted" None];
         OpReplace [IElement "paragraph" None]
                   [IElement "preformatted" None];
         OpRetain 2;
         OpReplace [IElement "/paragraph" None]
                   [IElement "/preformatted" None]]
     /\ consumed (operations tx) = 14).
Proof.
  repeat split.
  - eexists. split; [reflexivity|].
    apply (@builders_cover_document paragraphDocument
             (InsertionCall 2 [IContent "b" []])); reflexivity.
  - eexists. split; [reflexivity|].
    apply (@builders_cover_document twoParagraphsDocument
             (RemovalCall {| start := 2; end_ := 6 |})); reflexivity.
  - eexists. split; [reflexivity|].
    apply (@builders_cover_document mixedDocument
             (RemovalCall {| start := 2; end_ := 12 |})); reflexivity.
  - eexists. split; [reflexivity|].
    apply (@builders_cover_document headingDocument
             (AttributeChangeCall 3 "level" (VNum 2))); reflexivity.
  - eexists. split; [reflexivity|].
    apply (@builders_cover_document boldDocument
             (AnnotationCall {| start := 1; end_ := 4 |} "set" bold));
      reflexivity.
  - eexists. split; [reflexivity|]. split; [reflexivity|].
    apply (@builders_cover_document mixedDocument
             (ContentBranchConversionCall {| start := 2; end_ := 12 |}
                "preformatted" VUndefined)); reflexivity.
Defined.

(** ** [newFromAnnotation]: one start/stop pair per run (claim C8) *)

Lemma runs_positive (mask : list bool) :
  Forall (fun run => 0 < snd run) (runs mask).
Proof.
  induction mask as [|b mask IH]; simpl; [constructor|].
  destruct (runs mask) as [|[b' n] more].
  - constructor; [simpl; lia | constructor].
  - inversion IH as [|? ? Hn Hmore]; subst. simpl in Hn.
    destruct (Bool.eqb b b').
    + constructor; [simpl; lia | assumption].
    + constructor; [simpl; lia | constructor; assumption].
Qed.

(** Neighbouring runs carry different flags: each run is maximal. *)
Lemma runs_maximal (mask : list bool) :
  forall before b n b' n' after,
    runs mask = before ++ (b, n) :: (b', n') :: after -> b <> b'.
Proof.
  induction mask as [|c mask IH]; intros before b n b' n' after H.
  - destruct before; discriminate H.
  - simpl in H. destruct (runs mask) as [|[c' m] more] eqn:E.
    + destruct before as [|x [|y before]]; discriminate H.
    + destruct (Bool.eqb c c') eqn:Ec.
      * apply Bool.eqb_prop in Ec. subst c'.
        destruct before as [|x before].
        -- injection H as Hb Hn Hmore. subst b.
           apply (IH [] c m b' n' after). rewrite Hmore. reflexivity.
        -- injection H as Hx Hmore.
           apply (IH ((c, m) :: before) b n b' n' after).
           rewrite Hmore. reflexivity.
      * destruct before as [|x before].
        -- injection H as Hb Hn Hb' Hn' Hmore. subst b b'.
           intros Hcc. subst c'. rewrite Bool.eqb_reflx in Ec. discriminate.
        -- injection H as Hx Hmore.
           apply (IH before b n b' n' after). exact Hmore.
Qed.

(** The runs, expanded, give the mask back. *)
Lemma runs_expand (mask : list bool) :
  flat_map (fun run => repeat (fst run) (Z.to_nat (snd run))) (runs mask)
  = mask.
Proof.
  induction mask as [|b mask IH]; [reflexivity|].
  simpl. pose proof (runs_positive mask) as Hpos.
  destruct (runs mask) as [|[b' n] more].
  - simpl in *. rewrite <- IH. reflexivity.
  - apply Forall_inv in Hpos. rename Hpos into Hn. simpl in Hn.
    destruct (Bool.eqb b b') eqn:Eb.
    + apply Bool.eqb_prop in Eb. subst b'. simpl in *.
      replace (Z.to_nat (n + 1)) with (S (Z.to_nat n)) by lia.
      simpl. rewrite IH. reflexivity.
    + simpl in *. rewrite IH. reflexivity.
Qed.

Lemma runs_repeat_false (k : nat) :
  runs (repeat false k) =
  match k with
  | O => []
  | S _ => [(false, Z.of_nat k)]
  end.
Proof.
  induction k as [|k IH]; [reflexivity|].
  simpl repeat. simpl runs. rewrite IH.
  destruct k as [|k]; [reflexivity|].
  simpl Bool.eqb. cbv iota. f_equal. f_equal. lia.
Qed.

Section AnnotationRuns.

Local Arguments Z.add : simpl never.
Local Arguments Z.eqb : simpl never.

Variable doc : Document.
Variable method : string.
Variable annotation : Value.

Let data := getData doc.
Let runOps := flat_map (runOperations method annotation).
Let startOp := OpAnnotate method "start" annotation.
Let stopOp := OpAnnotate method "stop" annotation.

(** A pending run that is left alone absorbs one more item left alone. *)
Lemma continueRuns_off_off (span : Z) (mask : list bool) :
  continueRuns method annotation false span (runs (false :: mask)) =
  continueRuns method annotation false (span + 1) (runs mask).
Proof.
  simpl runs. destruct (runs mask) as [|[[|] n] more]; simpl.
  - reflexivity.
  - reflexivity.
  - replace (span + (n + 1)) with (span + 1 + n) by lia. reflexivity.
Qed.

(** A pending run being annotated absorbs one more eligible item. *)
Lemma continueRuns_on_on (span : Z) (mask : list bool) :
  continueRuns method annotation true span (runs (true :: mask)) =
  continueRuns method annotation true (span + 1) (runs mask).
Proof.
  simpl runs. destruct (runs mask) as [|[[|] n] more]; simpl.
  - reflexivity.
  - replace (span + (n + 1)) with (span + 1 + n) by lia. reflexivity.
  - reflexivity.
Qed.

(** An item to leave alone closes the run being annotated. *)
Lemma continueRuns_on_off (span : Z) (mask : list bool) :
  continueRuns method annotation true span (runs (false :: mask)) =
  [OpRetain span; stopOp]
  ++ continueRuns method annotation false 1 (runs mask).
Proof.
  simpl runs. pose proof (runs_positive mask) as Hpos.
  destruct (runs mask) as [|[[|] n] more]; simpl.
  - reflexivity.
  - reflexivity.
  - inversion Hpos as [|? ? Hn _]; subst. simpl in Hn.
    unfold retainOps.
    replace (1 + n =? 0) with false by (symmetry; apply Z.eqb_neq; lia).
    replace (n + 1) with (1 + n) by lia. reflexivity.
Qed.

(** An eligible item closes the run left alone and opens a pair. *)
Lemma continueRuns_off_on (span : Z) (mask : list bool) :
  continueRuns method annotation false span (runs (true :: mask)) =
  retainOps span
  ++ startOp :: continueRuns method annotation true 1 (runs mask).
Proof.
  simpl runs. destruct (runs mask) as [|[[|] n] more]; simpl.
  - reflexivity.
  - replace (n + 1) with (1 + n) by lia. reflexivity.
  - reflexivity.
Qed.

(** Before any item, nothing is pending. *)
Lemma continueRuns_start (mask : list bool) :
  continueRuns method annotation false 0 (runs mask) = runOps (runs mask).
Proof.
  pose proof (runs_positive mask) as Hpos.
  destruct (runs mask) as [|[[|] n] more]; simpl; try reflexivity.
  inversion Hpos as [|? ? Hn _]; subst. simpl in Hn.
  unfold retainOps. rewrite Z.add_0_l.
  replace (n =? 0) with false by (symmetry; apply Z.eqb_neq; lia).
  reflexivity.
Qed.

(** The offsets before the range are a run left alone. *)
Lemma continueRuns_prefix (k : nat) :
  forall (span : Z) (mask : list bool),
    continueRuns method annotation false span
      (runs (repeat false k ++ mask)) =
    continueRuns method annotation false (span + Z.of_nat k) (runs mask).
Proof.
  induction k as [|k IH]; intros span mask.
  - simpl. rewrite Z.add_0_r. reflexivity.
  - change (repeat false (S k) ++ mask)
      with (false :: (repeat false k ++ mask)).
    rewrite continueRuns_off_off, IH.
    replace (span + 1 + Z.of_nat k) with (span + Z.of_nat (S k)) by lia.
    reflexivity.
Qed.

End AnnotationRuns.

Lemma eligibleContent_condition (method : string) (covered : bool) :
  method = "set"%string \/ method = "clear"%string ->
  (covered && String.eqb method "set")
  || (negb covered && String.eqb method "clear")
  = negb (eligibleContent method covered).
Proof.
  intros [-> | ->]; unfold eligibleContent; destruct covered; reflexivity.
Qed.

Section AnnotationLoop.

Local Arguments Z.add : simpl never.
Local Arguments Z.eqb : simpl never.
Local Arguments Z.ltb : simpl never.

Variable doc : Document.
Variable method : string.
Variable annotation : Value.
Hypothesis set_or_clear : method = "set"%string \/ method = "clear"%string.

Let data := getData doc.

(** One iteration: the run goes on, or a pair is closed, or one is
    opened. *)
Lemma annotationLoop_step (steps : nat) (i span : Z) (on : bool)
    (tx : Transaction) :
  index data i <> IUndefined ->
  0 <= span -> (on = true -> 0 < span) ->
  endsWithRetain (operations tx) = false ->
  annotationLoop doc method annotation (S steps) i span on tx =
  if Bool.eqb (eligible doc method annotation i) on then
    annotationLoop doc method annotation steps (i + 1) (span + 1) on tx
  else if on then
    annotationLoop doc method annotation steps (i + 1) (0 + 1) false
      {| operations :=
           operations tx
           ++ [OpRetain span; OpAnnotate method "stop" annotation];
         lengthDifference := lengthDifference tx |}
  else
    annotationLoop doc method annotation steps (i + 1) (0 + 1) true
      {| operations :=
           operations tx ++ retainOps span
           ++ [OpAnnotate method "start" annotation];
         lengthDifference := lengthDifference tx |}.
Proof.
  intros Hitem Hspan Hon Hends.
  assert (Hclose : on = true ->
    (pushRetain span ;; pushStopAnnotating method annotation ;;
     ret (0, false)) tx =
    Ok ((0, false),
        {| operations :=
             operations tx
             ++ [OpRetain span; OpAnnotate method "stop" annotation];
           lengthDifference := lengthDifference tx |})).
  { intros Eon. specialize (Hon Eon). unfold bind.
    rewrite pushRetain_fresh by assumption.
    unfold pushStopAnnotating, ret, retainOps. simpl.
    replace (span =? 0) with false by (symmetry; apply Z.eqb_neq; lia).
    rewrite <- app_assoc. reflexivity. }
  assert (Hopen :
    (pushRetain span ;; pushStartAnnotating method annotation ;;
     ret (0, true)) tx =
    Ok ((0, true),
        {| operations :=
             operations tx ++ retainOps span
             ++ [OpAnnotate method "start" annotation];
           lengthDifference := lengthDifference tx |})).
  { unfold bind. rewrite pushRetain_fresh by assumption.
    unfold pushStartAnnotating, ret. simpl.
    rewrite <- app_assoc. reflexivity. }
  simpl annotationLoop. unfold eligible. fold data.
  destruct (index data i) as [|character annotations|type attributes]
    eqn:Eitem; [contradiction Hitem; reflexivity| |].
  - (* content *)
    unfold bind at 1. unfold lift. simpl itemType. cbv iota.
    rewrite eligibleContent_condition by assumption.
    destruct (eligibleContent method
                (offsetContainsAnnotation doc i annotation));
      destruct on; simpl negb; cbv iota; unfold bind at 1.
    + reflexivity.
    + rewrite Hopen. reflexivity.
    + rewrite Hclose by reflexivity. reflexivity.
    + reflexivity.
  - (* element *)
    unfold bind at 1. unfold lift. simpl itemType. cbv iota.
    destruct on; unfold bind at 1.
    + rewrite Hclose by reflexivity. reflexivity.
    + reflexivity.
Qed.

(** The loop, followed by what the builder does after it, records the
    runs of the items still to come, the pending run included. *)
Lemma annotationLoop_runs (tail : Z) (steps : nat) :
  forall (i span : Z) (on : bool) (tx : Transaction),
    0 <= tail ->
    0 <= span -> (on = true -> 0 < span) ->
    endsWithRetain (operations tx) = false ->
    (forall j, i <= j < i + Z.of_nat steps -> index data j <> IUndefined) ->
    bind (annotationLoop doc method annotation steps i span on)
         (finishAnnotation method annotation tail) tx =
    Ok (tt,
        {| operations :=
             operations tx
             ++ continueRuns method annotation on span
                  (runs (eligibleFrom doc method annotation steps i
                         ++ repeat false (Z.to_nat tail)));
           lengthDifference := lengthDifference tx |}).
Proof.
  induction steps as [|steps IH];
    intros i span on tx Htail Hspan Hon Hends Hitems.
  - (* after the last iteration *)
    simpl annotationLoop. simpl eligibleFrom. simpl app.
    rewrite runs_repeat_false.
    unfold bind at 1. unfold ret. unfold finishAnnotation.
    unfold bind at 1. rewrite pushRetain_fresh by assumption.
    destruct on.
    + specialize (Hon eq_refl).
      unfold bind at 1. unfold pushStopAnnotating.
      rewrite pushRetain_fresh;
        [|assumption | simpl operations; apply endsWithRetain_snoc].
      simpl operations. simpl lengthDifference.
      unfold retainOps at 1.
      replace (span =? 0) with false by (symmetry; apply Z.eqb_neq; lia).
      destruct (Z.to_nat tail) as [|k] eqn:Ek.
      * replace tail with 0 by lia. simpl.
        rewrite <- !app_assoc. reflexivity.
      * replace (Z.of_nat (S k)) with tail by lia.
        unfold retainOps.
        replace (tail =? 0) with false by (symmetry; apply Z.eqb_neq; lia).
        simpl. rewrite <- !app_assoc. reflexivity.
    + unfold bind at 1. unfold ret.
      destruct (Z.to_nat tail) as [|k] eqn:Ek.
      * replace tail with 0 by lia. rewrite pushRetain_zero.
        simpl. rewrite app_nil_r. reflexivity.
      * replace (Z.of_nat (S k)) with tail by lia.
        simpl continueRuns. rewrite app_nil_r.
        unfold retainOps.
        destruct (Z.eqb_spec span 0) as [-> | Hnz].
        -- rewrite app_nil_r. rewrite Z.add_0_l.
           rewrite pushRetain_fresh by assumption. reflexivity.
        -- rewrite pushRetain_positive by lia.
           simpl operations. rewrite withRetain_after_retain.
           replace (span + tail =? 0) with false
             by (symmetry; apply Z.eqb_neq; lia).
           reflexivity.
  - (* one more iteration *)
    assert (Hitem : index data i <> IUndefined) by (apply Hitems; lia).
    assert (Hrest : forall j, i + 1 <= j < i + 1 + Z.of_nat steps ->
                              index data j <> IUndefined)
      by (intros j Hj; apply Hitems; lia).
    unfold bind at 1.
    rewrite annotationLoop_step by assumption.
    simpl eligibleFrom.
    change ((eligible doc method annotation i
             :: eligibleFrom doc method annotation steps (i + 1))
            ++ repeat false (Z.to_nat tail))
      with (eligible doc method annotation i
            :: (eligibleFrom doc method annotation steps (i + 1)
                ++ repeat false (Z.to_nat tail))).
    destruct (eligible doc method annotation i); destruct on;
      simpl Bool.eqb; cbv iota.
    + rewrite continueRuns_on_on.
      apply (IH (i + 1) (span + 1) true tx); try assumption; lia.
    + rewrite continueRuns_off_on.
      rewrite Z.add_0_l.
      pose proof (IH (i + 1) 1 true
        {| operations :=
             operations tx ++ retainOps span
             ++ [OpAnnotate method "start" annotation];
           lengthDifference := lengthDifference tx |}) as Hnext.
      unfold bind at 1 in Hnext. rewrite Hnext; try assumption; try lia.
      * simpl operations. rewrite <- !app_assoc. reflexivity.
      * simpl operations. rewrite app_assoc. apply endsWithRetain_snoc.
    + rewrite continueRuns_on_off.
      rewrite Z.add_0_l.
      pose proof (IH (i + 1) 1 false
        {| operations :=
             operations tx
             ++ [OpRetain span; OpAnnotate method "stop" annotation];
           lengthDifference := lengthDifference tx |}) as Hnext.
      unfold bind at 1 in Hnext. rewrite Hnext; try assumption; try lia.
      * simpl operations. rewrite <- !app_assoc. reflexivity.
      * simpl operations.
        change [OpRetain span; OpAnnotate method "stop" annotation]
          with ([OpRetain span] ++ [OpAnnotate method "stop" annotation]).
        rewrite app_assoc. apply endsWithRetain_snoc.
    + rewrite continueRuns_off_off.
      apply (IH (i + 1) (span + 1) false tx); try assumption; lia.
Qed.

End AnnotationLoop.

Lemma normalize_ordered (range : Range) :
  start (normalize range) <= end_ (normalize range).
Proof.
  unfold normalize.
  destruct (Z.ltb_spec (end_ range) (start range)); simpl; lia.
Qed.

(** The operations of the runs annotate exactly the offsets of the runs to
    annotate. *)
Lemma annotatedOffsets_runs (method : string) (annotation : Value)
    (following : list (bool * Z)) :
  annotatedOffsets false
    (flat_map (runOperations method annotation) following) =
  flat_map (fun run => repeat (fst run) (Z.to_nat (snd run))) following.
Proof.
  induction following as [|[[|] n] following IH]; simpl.
  - reflexivity.
  - rewrite IH. reflexivity.
  - rewrite IH. reflexivity.
Qed.

Section Annotation.

Variable doc : Document.
Variable annotation : Value.

Let data := getData doc.

(** A loop that has run to its end has read an item at every offset. *)
Lemma annotationLoop_Ok_defined (method : string) (steps : nat) :
  forall (i span : Z) (on : bool) (tx : Transaction)
         (r : Z * bool * Transaction),
    annotationLoop doc method annotation steps i span on tx = Ok r ->
    forall j, i <= j < i + Z.of_nat steps -> index data j <> IUndefined.
Proof.
  induction steps as [|steps IH]; intros i span on tx r H j Hj; [lia|].
  simpl annotationLoop in H.
  apply bind_Ok in H. destruct H as (type & tx1 & Htype & H).
  apply lift_Ok in Htype. destruct Htype as [Htype _].
  apply bind_Ok in H. destruct H as ([span1 on1] & tx2 & _ & H).
  destruct (Z.eq_dec j i) as [-> | Hne].
  - fold data in Htype. intros E. rewrite E in Htype. discriminate Htype.
  - apply (IH _ _ _ _ _ H). lia.
Qed.

(** A call that returns was given a range inside the document. *)
Lemma newFromAnnotation_Ok_inside (range : Range) (method : string)
    (tx : Transaction) :
  newFromAnnotation doc range method annotation = Ok tx ->
  0 <= start (normalize range) /\
  end_ (normalize range) <= len data /\
  forall i, start (normalize range) <= i < end_ (normalize range) ->
            index data i <> IUndefined.
Proof.
  intros H. pose proof (normalize_ordered range) as Hordered.
  unfold newFromAnnotation in H.
  apply build_Ok in H. destruct H as [u H].
  apply bind_Ok in H. destruct H as ([span on] & tx1 & Hloop & H).
  assert (Hitems : forall i,
            start (normalize range) <= i < end_ (normalize range) ->
            index data i <> IUndefined).
  { intros i Hi. eapply annotationLoop_Ok_defined; [exact Hloop | lia]. }
  fold data in H.
  destruct (Z.eq_dec (start (normalize range)) (end_ (normalize range)))
    as [Hempty | Hne].
  - rewrite <- Hempty in *. rewrite Z.sub_diag in Hloop. simpl in Hloop.
    apply ret_Ok in Hloop. destruct Hloop as [Hst _].
    injection Hst as <- <-.
    tx_inversion. repeat split; try assumption; lia.
  - assert (0 <= start (normalize range) < len data)
      by (apply index_defined, Hitems; lia).
    assert (0 <= end_ (normalize range) - 1 < len data)
      by (apply index_defined, Hitems; lia).
    repeat split; try assumption; lia.
Qed.

(** C8.  For method 'set' or 'clear', a call with a range inside the
    document returns, and every transaction returned is, run by run of the
    mask of the items to annotate, one retain for a run to leave alone and
    one start / retain / stop triple for a run to annotate.  The mask holds
    an item when it lies in the range and is content that is eligible (not
    carrying the annotation for 'set', carrying it for 'clear'); an element
    marker is never in it, so no pair brackets one: the offsets the
    operations walk over between a start and its stop are exactly those of
    the mask.  The runs are maximal (neighbouring runs differ), so each run
    of adjacent eligible content gets exactly one pair.  In particular five
    plain characters at 0..5 give start, retain 5, stop (and the retain of
    what follows them, if anything). *)
Theorem newFromAnnotation_runs (range : Range) (method : string) :
  let normalized := normalize range in
  let mask := annotationMask doc normalized method annotation in
  let expected := flat_map (runOperations method annotation) (runs mask) in
  (method = "set"%string \/ method = "clear"%string ->
   (0 <= start normalized -> end_ normalized <= len data ->
    (forall i, start normalized <= i < end_ normalized ->
               index data i <> IUndefined) ->
    newFromAnnotation doc range method annotation =
      Ok {| operations := expected; lengthDifference := 0 |}) /\
   (forall tx,
      newFromAnnotation doc range method annotation = Ok tx ->
      operations tx = expected) /\
   annotatedOffsets false expected = mask /\
   (forall before b n b' n' after,
      runs mask = before ++ (b, n) :: (b', n') :: after -> b <> b')) /\
  ((forall i, 0 <= i < 5 ->
      exists character annotations,
        index data i = IContent character annotations /\
        offsetContainsAnnotation doc i annotation = false) ->
   newFromAnnotation doc {| start := 0; end_ := 5 |} "set" annotation =
     Ok {| operations :=
             [OpAnnotate "set" "start" annotation; OpRetain 5;
              OpAnnotate "set" "stop" annotation]
             ++ retainOps (len data - 5);
           lengthDifference := 0 |}).
Proof.
  assert (General : forall range method,
    method = "set"%string \/ method = "clear"%string ->
    0 <= start (normalize range) -> end_ (normalize range) <= len data ->
    (forall i, start (normalize range) <= i < end_ (normalize range) ->
               index data i <> IUndefined) ->
    newFromAnnotation doc range method annotation =
      Ok {| operations :=
              flat_map (runOperations method annotation)
                (runs (annotationMask doc (normalize range) method
                         annotation));
            lengthDifference := 0 |}).
  { clear range method. intros range method Hmethod Hstart Hend Hitems.
    pose proof (normalize_ordered range) as Hordered.
    unfold newFromAnnotation, build. fold data.
    change (bind (annotationLoop doc method annotation
                    (Z.to_nat (end_ (normalize range)
                               - start (normalize range)))
                    (start (normalize range)) (start (normalize range))
                    false) _ newTransaction)
      with (bind (annotationLoop doc method annotation
                    (Z.to_nat (end_ (normalize range)
                               - start (normalize range)))
                    (start (normalize range)) (start (normalize range))
                    false)
              (finishAnnotation method annotation
                 (len data - end_ (normalize range))) newTransaction).
    rewrite annotationLoop_runs; try assumption; try lia;
      try reflexivity; try discriminate.
    - simpl operations. simpl lengthDifference.
      unfold annotationMask. fold data.
      rewrite <- continueRuns_start, continueRuns_prefix.
      rewrite Z.add_0_l, Z2Nat.id by assumption.
      reflexivity.
    - intros j Hj. apply Hitems. lia. }
  intros normalized mask expected. split.
  - intros Hmethod. split; [|split; [|split]].
    + intros Hstart Hend Hitems. apply General; assumption.
    + intros tx Hrun.
      destruct (newFromAnnotation_Ok_inside _ _ Hrun)
        as (Hstart & Hend & Hitems).
      rewrite General in Hrun by assumption.
      injection Hrun as <-. reflexivity.
    + unfold expected. rewrite annotatedOffsets_runs. apply runs_expand.
    + apply runs_maximal.
  - intros Hplain.
    assert (Hlen : 5 <= len data).
    { destruct (Hplain 4 ltac:(lia)) as (c & a & Hitem & _).
      assert (0 <= 4 < len data)
        by (apply index_defined; rewrite Hitem; discriminate).
      lia. }
    rewrite General.
    + f_equal. f_equal.
      unfold annotationMask. fold data.
      change (normalize {| start := 0; end_ := 5 |})
        with {| start := 0; end_ := 5 |}.
      simpl start. simpl end_.
      change (Z.to_nat (5 - 0)) with 5%nat.
      change (Z.to_nat 0) with 0%nat.
      assert (Heligible : forall i, 0 <= i < 5 ->
                eligible doc "set" annotation i = true).
      { intros i Hi. destruct (Hplain i Hi) as (c & a & Hitem & Hcov).
        unfold eligible. fold data. rewrite Hitem, Hcov. reflexivity. }
      simpl eligibleFrom. simpl repeat at 1. simpl app.
      rewrite !Heligible by lia.
      simpl runs. rewrite runs_repeat_false.
      unfold retainOps.
      destruct (Z.to_nat (len data - 5)) as [|k] eqn:Ek.
      * replace (len data - 5 =? 0) with true
          by (symmetry; apply Z.eqb_eq; lia).
        reflexivity.
      * replace (len data - 5 =? 0) with false
          by (symmetry; apply Z.eqb_neq; lia).
        replace (len data - 5) with (Z.of_nat (S k)) by lia.
        reflexivity.
    + left. reflexivity.
    + discriminate.
    + exact Hlen.
    + intros i Hi. change (0 <= i < 5) in Hi.
      destruct (Hplain i Hi) as (c & a & Hitem & _).
      rewrite Hitem. discriminate.
Qed.

End Annotation.

(** [newFromAnnotation_runs] on the bold document, across the boundary of
    its two paragraphs: 'a', 'c' and 'd' get a pair each, the bold 'b' and
    the two markers between 'c' and 'd' close the pair before them.  Then
    the five plain characters of the example. *)
Lemma newFromAnnotation_runs_witness :
  newFromAnnotation boldDocument {| start := 7; end_ := 1 |} "set" bold =
    Ok {| operations :=
            [OpRetain 1;
             OpAnnotate "set" "start" bold; OpRetain 1;
             OpAnnotate "set" "stop" bold;
             OpRetain 1;
             OpAnnotate "set" "start" bold; OpRetain 1;
             OpAnnotate "set" "stop" bold;
             OpRetain 2;
             OpAnnotate "set" "start" bold; OpRetain 1;
             OpAnnotate "set" "stop" bold;
             OpRetain 1];
          lengthDifference := 0 |} /\
  operations
    {| operations :=
         [OpRetain 2; OpAnnotate "clear" "start" bold; OpRetain 1;
          OpAnnotate "clear" "stop" bold; OpRetain 5];
       lengthDifference := 0 |} =
    flat_map (runOperations "clear" bold)
      (runs (annotationMask boldDocument {| start := 1; end_ := 4 |}
               "clear" bold)) /\
  false <> true /\
  newFromAnnotation helloDocument {| start := 0; end_ := 5 |} "set" bold =
    Ok {| operations :=
            [OpAnnotate "set" "start" bold; OpRetain 5;
             OpAnnotate "set" "stop" bold];
          lengthDifference := 0 |}.
Proof.
  split; [|split; [|split]].
  - refine (proj1 (proj1 (@newFromAnnotation_runs boldDocument bold
                            {| start := 7; end_ := 1 |} "set") _)
              _ _ _).
    + left. reflexivity.
    + discriminate.
    + discriminate.
    + intros i Hi. change (1 <= i < 7) in Hi.
      assert (Hcases : i = 1 \/ i = 2 \/ i = 3 \/ i = 4 \/ i = 5 \/ i = 6)
        by lia.
      destruct Hcases as [-> | [-> | [-> | [-> | [-> | ->]]]]];
        discriminate.
  - refine (proj1 (proj2 (proj1 (@newFromAnnotation_runs boldDocument bold
                                   {| start := 1; end_ := 4 |} "clear") _))
              _ _).
    + right. reflexivity.
    + reflexivity.
  - refine (proj2 (proj2 (proj2 (proj1
              (@newFromAnnotation_runs boldDocument bold
                 {| start := 7; end_ := 1 |} "set") _)))
              [] false 1 true 1
              [(false, 1); (true, 1); (false, 2); (true, 1); (false, 1)]
              _).
    + left. reflexivity.
    + reflexivity.
  - refine (proj2 (@newFromAnnotation_runs helloDocument bold
                     {| start := 0; end_ := 5 |} "set") _).
    intros i Hi.
    assert (Hcases : i = 0 \/ i = 1 \/ i = 2 \/ i = 3 \/ i = 4) by lia.
    destruct Hcases as [-> | [-> | [-> | [-> | ->]]]];
      eexists; eexists; split; reflexivity.
Defined.

(** ** Invariants of the builders

    The builders touch the transaction through the push methods only.  A
    property of transactions that [pushRetain] keeps, and that the other
    push methods keep for the arguments a builder gives them, holds of
    whatever that builder returns. *)

Section BuilderInvariant.

Variable P : Transaction -> Prop.
Variable replaceable : list Item -> list Item -> Prop.
Variable changeable : string -> Value -> Value -> Prop.
Variable annotatable : string -> Value -> Prop.

Hypothesis retain_keeps :
  forall length tx u tx',
    P tx -> pushRetain length tx = Ok (u, tx') -> P tx'.
Hypothesis replace_keeps :
  forall remove insert tx u tx',
    replaceable remove insert ->
    P tx -> pushReplace remove insert tx = Ok (u, tx') -> P tx'.
Hypothesis attribute_keeps :
  forall key from to tx u tx',
    changeable key from to ->
    P tx -> pushReplaceElementAttribute key from to tx = Ok (u, tx') -> P tx'.
Hypothesis start_keeps :
  forall method annotation tx u tx',
    annotatable method annotation ->
    P tx -> pushStartAnnotating method annotation tx = Ok (u, tx') -> P tx'.
Hypothesis stop_keeps :
  forall method annotation tx u tx',
    annotatable method annotation ->
    P tx -> pushStopAnnotating method annotation tx = Ok (u, tx') -> P tx'.

Ltac keep_invariant :=
  repeat match goal with
    | H : bind _ _ _ = Ok _ |- _ =>
        let a := fresh "a" in
        let tx1 := fresh "tx" in
        let H1 := fresh "Hrun" in
        let H2 := fresh "Hrun" in
        apply bind_Ok in H; destruct H as (a & tx1 & H1 & H2)
    | H : ret _ _ = Ok _ |- _ => apply ret_Ok in H; destruct H; subst
    | H : lift _ _ = Ok _ |- _ => apply lift_Ok in H; destruct H; subst
    | H : throw _ _ = Ok _ |- _ => discriminate H
    | Hp : P ?tx, H : pushRetain _ ?tx = Ok _ |- _ =>
        apply (@retain_keeps _ _ _ _ Hp) in H
    | Hp : P ?tx, H : pushReplace ?r ?i ?tx = Ok _ |- _ =>
        apply (fun Hq => @replace_keeps r i tx _ _ Hq Hp) in H;
        [|solve [auto]]
    | Hp : P ?tx, H : pushReplaceElementAttribute ?k ?f ?t ?tx = Ok _ |- _ =>
        apply (fun Hq => @attribute_keeps k f t tx _ _ Hq Hp) in H;
        [|solve [auto]]
    | Hp : P ?tx, H : pushStartAnnotating ?m ?a ?tx = Ok _ |- _ =>
        apply (fun Hq => @start_keeps m a tx _ _ Hq Hp) in H;
        [|solve [auto]]
    | Hp : P ?tx, H : pushStopAnnotating ?m ?a ?tx = Ok _ |- _ =>
        apply (fun Hq => @stop_keeps m a tx _ _ Hq Hp) in H;
        [|solve [auto]]
    end.

Lemma newFromInsertion_invariant (doc : Document) (offset : Z)
    (insertion : list Item) (tx : Transaction) :
  replaceable [] (fixupInsertion doc insertion offset) ->
  P newTransaction ->
  newFromInsertion doc offset insertion = Ok tx -> P tx.
Proof.
  intros Hreplace Hnew H. unfold newFromInsertion in H.
  apply build_Ok in H. destruct H as [u H].
  keep_invariant. assumption.
Qed.

Lemma removalLoop_invariant (data : list Item) (selection : list Selected) :
  (forall remove, replaceable remove []) ->
  forall offset pending tx st tx',
    P tx ->
    removalLoop data selection offset pending tx = Ok (st, tx') -> P tx'.
Proof.
  intros Hreplace.
  induction selection as [|selected selection IH];
    intros offset pending tx st tx' Hp H; simpl in H.
  - keep_invariant. assumption.
  - destruct (removalSpan selected) as [nodeStart nodeEnd].
    destruct pending as [[removeStart removeEnd]|].
    + destruct (removeEnd =? nodeStart).
      * apply (IH _ _ _ _ _ Hp H).
      * keep_invariant.
        match goal with
        | Hrec : removalLoop _ _ _ _ _ = Ok _, Hq : P _ |- _ =>
            apply (IH _ _ _ _ _ Hq Hrec)
        end.
    + apply (IH _ _ _ _ _ Hp H).
Qed.

Lemma newFromRemoval_invariant (doc : Document) (range : Range)
    (tx : Transaction) :
  (forall remove, replaceable remove []) ->
  P newTransaction ->
  newFromRemoval doc range = Ok tx -> P tx.
Proof.
  intros Hreplace Hnew H. unfold newFromRemoval in H.
  apply build_Ok in H. destruct H as [u H].
  destruct (start (normalize range) =? end_ (normalize range)).
  { keep_invariant. assumption. }
  destruct (selectNodes doc (normalize range) "covered")
    as [|first rest]; [discriminate H|].
  destruct (canBeMergedWith doc (node first)
              (node (List.last (first :: rest) first))).
  - destruct (mergeSpan first (List.last (first :: rest) first))
      as [removeStart removeEnd].
    keep_invariant. assumption.
  - apply bind_Ok in H. destruct H as ([offset pending] & tx1 & Hloop & H).
    apply (removalLoop_invariant _ _ Hreplace _ _ Hnew) in Hloop.
    destruct pending as [[removeStart removeEnd]|];
      keep_invariant; assumption.
Qed.

Lemma newFromAttributeChange_invariant (doc : Document) (offset : Z)
    (key : string) (value : Value) (tx : Transaction) :
  (forall from, changeable key from value) ->
  P newTransaction ->
  newFromAttributeChange doc offset key value = Ok tx -> P tx.
Proof.
  intros Hchange Hnew H. unfold newFromAttributeChange in H.
  apply build_Ok in H. destruct H as [u H].
  apply bind_Ok in H. destruct H as (type & tx1 & Htype & H).
  apply lift_Ok in Htype. destruct Htype as [_ <-].
  destruct type as [type|]; [|discriminate H].
  destruct (isClosingType type); [discriminate H|].
  keep_invariant. assumption.
Qed.

Lemma annotationLoop_invariant (doc : Document) (method : string)
    (annotation : Value) (steps : nat) :
  annotatable method annotation ->
  forall i span on tx st tx',
    P tx ->
    annotationLoop doc method annotation steps i span on tx = Ok (st, tx') ->
    P tx'.
Proof.
  intros Hannotate.
  induction steps as [|steps IH]; intros i span on tx st tx' Hp H;
    simpl annotationLoop in H.
  - keep_invariant. assumption.
  - apply bind_Ok in H. destruct H as (type & tx1 & Htype & H).
    apply lift_Ok in Htype. destruct Htype as [_ <-].
    apply bind_Ok in H. destruct H as ([span1 on1] & tx2 & Hstep & H).
    apply (IH _ _ _ _ _ _) with (2 := H).
    destruct type as [type|].
    + destruct on; keep_invariant; assumption.
    + destruct ((offsetContainsAnnotation doc i annotation
                 && String.eqb method "set")
                || (negb (offsetContainsAnnotation doc i annotation)
                    && String.eqb method "clear"));
        destruct on; cbn [negb] in Hstep; keep_invariant; assumption.
Qed.

Lemma newFromAnnotation_invariant (doc : Document) (range : Range)
    (method : string) (annotation : Value) (tx : Transaction) :
  annotatable method annotation ->
  P newTransaction ->
  newFromAnnotation doc range method annotation = Ok tx -> P tx.
Proof.
  intros Hannotate Hnew H. unfold newFromAnnotation in H.
  apply build_Ok in H. destruct H as [u H].
  apply bind_Ok in H. destruct H as ([span on] & tx1 & Hloop & H).
  apply (annotationLoop_invariant _ _ Hannotate _ _ _ Hnew) in Hloop.
  destruct on; keep_invariant; assumption.
Qed.

Lemma conversionLoop_invariant (doc : Document) (opening closing : Item)
    (selection : list Selected) :
  (forall removed, replaceable [removed] [opening]) ->
  (forall removed, replaceable [removed] [closing]) ->
  forall previous tx previous' tx',
    P tx ->
    conversionLoop doc opening closing selection previous tx =
      Ok (previous', tx') ->
    P tx'.
Proof.
  intros Hopening Hclosing.
  induction selection as [|selected selection IH];
    intros previous tx previous' tx' Hp H; simpl in H.
  - keep_invariant. assumption.
  - destruct (isContent doc (node selected));
      [|apply (IH _ _ _ _ Hp H)].
    destruct (getParent doc (node selected)) as [branch|];
      [|discriminate H].
    match type of H with
    | (if ?c then _ else _) _ = _ => destruct c
    end; [apply (IH _ _ _ _ Hp H)|].
    keep_invariant.
    match goal with
    | Hrec : conversionLoop _ _ _ _ _ _ = Ok _, Hq : P _ |- _ =>
        apply (IH _ _ _ _ Hq Hrec)
    end.
Qed.

Lemma newFromContentBranchConversion_invariant (doc : Document)
    (range : Range) (type : string) (attr : Value) (tx : Transaction) :
  (forall removed,
     replaceable [removed] [IElement type (openingAttributes attr)]) ->
  (forall removed,
     replaceable [removed] [IElement (String.append "/" type) None]) ->
  P newTransaction ->
  newFromContentBranchConversion doc range type attr = Ok tx -> P tx.
Proof.
  intros Hopening Hclosing Hnew H.
  unfold newFromContentBranchConversion in H.
  apply build_Ok in H. destruct H as [u H].
  apply bind_Ok in H. destruct H as (previous & tx1 & Hloop & H).
  eapply conversionLoop_invariant in Hloop;
    [|exact Hopening | exact Hclosing | exact Hnew].
  keep_invariant. assumption.
Qed.

End BuilderInvariant.

(** ** [lengthDifference] is the sum over the replaces *)

Lemma lengthDelta_replaces (ops : list Operation) :
  lengthDelta ops = lengthDelta (replaces ops).
Proof.
  induction ops as [|op ops IH]; [reflexivity|].
  destruct op; simpl; rewrite IH; reflexivity.
Qed.

(** For every call of a builder that returns, the [lengthDifference] of the
    transaction is the sum of [insert.length - remove.length] over the
    replaces it holds. *)
Theorem lengthDifference_is_sum_over_replaces
    (doc : Document) (call : BuilderCall) (tx : Transaction) :
  callBuilder doc call = Ok tx ->
  lengthDifference tx = lengthDelta (operations tx).
Proof.
  set (P := fun t : Transaction =>
              lengthDifference t = lengthDelta (operations t)).
  assert (Hretain : forall length t u t',
            P t -> pushRetain length t = Ok (u, t') -> P t').
  { unfold P. intros length t u t' Hp H.
    apply pushRetain_Ok in H. destruct H as (_ & _ & Hr & Hd).
    rewrite Hd, Hp, lengthDelta_replaces, <- Hr, <- lengthDelta_replaces.
    reflexivity. }
  assert (Hreplace : forall remove insert t u t',
            True -> P t -> pushReplace remove insert t = Ok (u, t') -> P t').
  { unfold P. intros remove insert t u t' _ Hp H. unfold pushReplace in H.
    destruct ((len remove =? 0) && (len insert =? 0)) eqn:E;
      injection H as _ <-; [assumption|].
    simpl. rewrite lengthDelta_app, Hp. simpl. lia. }
  assert (Hattribute : forall key from to t u t',
            True -> P t ->
            pushReplaceElementAttribute key from to t = Ok (u, t') -> P t').
  { unfold P. intros key from to t u t' _ Hp H.
    apply pushReplaceElementAttribute_Ok in H. destruct H as (_ & Hr & Hd).
    rewrite Hd, Hp, lengthDelta_replaces, <- Hr, <- lengthDelta_replaces.
    reflexivity. }
  assert (Hstart : forall method annotation t u t',
            True -> P t ->
            pushStartAnnotating method annotation t = Ok (u, t') -> P t').
  { unfold P. intros method annotation t u t' _ Hp H.
    apply pushStartAnnotating_Ok in H. destruct H as (_ & Hr & Hd).
    rewrite Hd, Hp, lengthDelta_replaces, <- Hr, <- lengthDelta_replaces.
    reflexivity. }
  assert (Hstop : forall method annotation t u t',
            True -> P t ->
            pushStopAnnotating method annotation t = Ok (u, t') -> P t').
  { unfold P. intros method annotation t u t' _ Hp H.
    apply pushStopAnnotating_Ok in H. destruct H as (_ & Hr & Hd).
    rewrite Hd, Hp, lengthDelta_replaces, <- Hr, <- lengthDelta_replaces.
    reflexivity. }
  assert (Hnew : P newTransaction) by reflexivity.
  intros H. change (P tx).
  destruct call as [offset insertion | range | offset key value
                   | range method annotation | range type attr];
    simpl in H.
  - eapply (@newFromInsertion_invariant P (fun _ _ => True));
      eauto.
  - eapply (@newFromRemoval_invariant P (fun _ _ => True)); eauto.
  - eapply (@newFromAttributeChange_invariant P (fun _ _ _ => True));
      eauto.
  - eapply (@newFromAnnotation_invariant P (fun _ _ => True)); eauto.
  - eapply (@newFromContentBranchConversion_invariant P (fun _ _ => True));
      eauto.
Qed.

(** [lengthDifference_is_sum_over_replaces] on the removal from the heading
    and three paragraphs, which takes eight items out in three replaces. *)
Lemma lengthDifference_is_sum_over_replaces_witness :
  exists tx,
    callBuilder mixedDocument (RemovalCall {| start := 2; end_ := 12 |})
      = Ok tx /\
    lengthDifference tx = -8 /\
    lengthDifference tx = lengthDelta (operations tx).
Proof.
  eexists. split; [reflexivity|]. split; [reflexivity|].
  apply (@lengthDifference_is_sum_over_replaces mixedDocument
           (RemovalCall {| start := 2; end_ := 12 |})).
  reflexivity.
Defined.

(** ** Transactions are kept in canonical form *)

Lemma endsWithRetain_cons (op next : Operation) (ops : list Operation) :
  endsWithRetain (op :: next :: ops) = endsWithRetain (next :: ops).
Proof.
  unfold endsWithRetain. simpl rev.
  destruct (rev ops ++ [next]) as [|last others] eqn:E.
  - destruct (rev ops); discriminate E.
  - reflexivity.
Qed.

Lemma canonicalOps_snoc (ops : list Operation) (op : Operation) :
  canonicalOps (ops ++ [op]) =
  canonicalOps ops && recordable op
  && negb (endsWithRetain ops && isRetain op).
Proof.
  induction ops as [|first ops IH].
  - simpl. destruct (recordable op), (isRetain op); reflexivity.
  - destruct ops as [|next ops].
    + simpl. unfold endsWithRetain. simpl.
      destruct (recordable first), (recordable op), first, op; reflexivity.
    + change (canonicalOps ((first :: next :: ops) ++ [op]))
        with (recordable first
              && negb (isRetain first && startsWithRetain (next :: ops))
              && canonicalOps ((next :: ops) ++ [op])).
      rewrite IH, endsWithRetain_cons.
      change (canonicalOps (first :: next :: ops))
        with (recordable first
              && negb (isRetain first && startsWithRetain (next :: ops))
              && canonicalOps (next :: ops)).
      destruct (recordable first),
        (negb (isRetain first && startsWithRetain (next :: ops))),
        (canonicalOps (next :: ops)), (recordable op),
        (negb (endsWithRetain (next :: ops) && isRetain op)); reflexivity.
Qed.

Lemma canonicalOps_withRetain (ops : list Operation) (length : Z) :
  0 < length ->
  canonicalOps ops = true -> canonicalOps (withRetain ops length) = true.
Proof.
  intros Hpos Hcanonical. unfold withRetain.
  destruct (rev ops) as [|last before] eqn:E.
  - rewrite canonicalOps_snoc, Hcanonical.
    assert (ops = []) as -> by (apply (f_equal (@rev _)) in E;
                                rewrite rev_involutive in E; exact E).
    simpl. apply Z.ltb_lt in Hpos. rewrite Hpos. reflexivity.
  - assert (Hops : ops = rev before ++ [last]).
    { rewrite <- (rev_involutive ops), E. reflexivity. }
    destruct last as [n| | |].
    + rewrite Hops, canonicalOps_snoc in Hcanonical.
      apply andb_prop in Hcanonical. destruct Hcanonical as [H Hends].
      apply andb_prop in H. destruct H as [Hbefore Hn].
      simpl in Hn. apply Z.ltb_lt in Hn. simpl isRetain in Hends.
      rewrite canonicalOps_snoc, Hbefore. simpl isRetain. rewrite Hends.
      simpl recordable.
      replace (0 <? n + length) with true
        by (symmetry; apply Z.ltb_lt; lia).
      reflexivity.
    + rewrite canonicalOps_snoc, Hcanonical.
      unfold endsWithRetain. rewrite E. simpl.
      apply Z.ltb_lt in Hpos. rewrite Hpos. reflexivity.
    + rewrite canonicalOps_snoc, Hcanonical.
      unfold endsWithRetain. rewrite E. simpl.
      apply Z.ltb_lt in Hpos. rewrite Hpos. reflexivity.
    + rewrite canonicalOps_snoc, Hcanonical.
      unfold endsWithRetain. rewrite E. simpl.
      apply Z.ltb_lt in Hpos. rewrite Hpos. reflexivity.
Qed.

(** Each push method keeps the operation list canonical. *)
Lemma pushRetain_canonical (length : Z) (tx tx' : Transaction) (u : unit) :
  canonicalOps (operations tx) = true ->
  pushRetain length tx = Ok (u, tx') ->
  canonicalOps (operations tx') = true.
Proof.
  intros Hcanonical H.
  destruct (Z.lt_trichotomy length 0) as [Hneg | [-> | Hpos]].
  - rewrite pushRetain_negative in H by assumption. discriminate.
  - rewrite pushRetain_zero in H. injection H as _ <-. assumption.
  - rewrite pushRetain_positive in H by assumption. injection H as _ <-.
    apply canonicalOps_withRetain; assumption.
Qed.

Lemma pushReplace_canonical (remove insert : list Item)
    (tx tx' : Transaction) (u : unit) :
  canonicalOps (operations tx) = true ->
  pushReplace remove insert tx = Ok (u, tx') ->
  canonicalOps (operations tx') = true.
Proof.
  intros Hcanonical H. unfold pushReplace in H.
  rewrite !len_eqb_zero in H.
  destruct remove as [|r remove], insert as [|i insert];
    injection H as _ <-; try assumption;
    simpl operations; rewrite canonicalOps_snoc, Hcanonical;
    simpl; rewrite andb_false_r; reflexivity.
Qed.

(** A canonical list is recorded as it is. *)
Lemma canonicalOps_recorded (ops : list Operation) :
  canonicalOps ops = true -> recorded ops = ops.
Proof.
  induction ops as [|op ops IH]; intros H; [reflexivity|].
  simpl in H. apply andb_prop in H. destruct H as [H Hrest].
  apply andb_prop in H. destruct H as [Hop Hnext].
  simpl. rewrite (IH Hrest).
  destruct op as [n|remove insert| |]; try reflexivity.
  - simpl in Hop. apply Z.ltb_lt in Hop.
    replace (n =? 0) with false by (symmetry; apply Z.eqb_neq; lia).
    destruct ops as [|[] ops]; try reflexivity. discriminate Hnext.
  - destruct remove, insert; try reflexivity. discriminate Hop.
Qed.

(** For every call of a builder that returns, the operations of the
    transaction are canonical: every retain has a positive length, no
    replace has both arrays empty, and no retain follows another retain;
    recording them again would change nothing. *)
Theorem builders_record_canonical_operations
    (doc : Document) (call : BuilderCall) (tx : Transaction) :
  callBuilder doc call = Ok tx ->
  canonicalOps (operations tx) = true /\
  recorded (operations tx) = operations tx.
Proof.
  intros Hcall.
  assert (Hcanonical : canonicalOps (operations tx) = true);
    [|split; [exact Hcanonical | apply canonicalOps_recorded, Hcanonical]].
  revert Hcall.
  set (P := fun t : Transaction => canonicalOps (operations t) = true).
  assert (Hretain : forall length t u t',
            P t -> pushRetain length t = Ok (u, t') -> P t').
  { intros length t u t' Hp H. eapply pushRetain_canonical; eassumption. }
  assert (Hreplace : forall remove insert t u t',
            True -> P t -> pushReplace remove insert t = Ok (u, t') -> P t').
  { intros remove insert t u t' _ Hp H.
    eapply pushReplace_canonical; eassumption. }
  assert (Hsnoc : forall t op, isRetain op = false -> recordable op = true ->
            P t ->
            P {| operations := operations t ++ [op];
                 lengthDifference := lengthDifference t |}).
  { unfold P. intros t op Hop Hrec Hp. simpl.
    rewrite canonicalOps_snoc, Hp, Hrec, Hop, andb_false_r. reflexivity. }
  assert (Hattribute : forall key from to t u t',
            True -> P t ->
            pushReplaceElementAttribute key from to t = Ok (u, t') -> P t').
  { intros key from to t u t' _ Hp H.
    unfold pushReplaceElementAttribute in H. injection H as _ <-.
    apply Hsnoc; [reflexivity | reflexivity | assumption]. }
  assert (Hstart : forall method annotation t u t',
            True -> P t ->
            pushStartAnnotating method annotation t = Ok (u, t') -> P t').
  { intros method annotation t u t' _ Hp H.
    unfold pushStartAnnotating in H. injection H as _ <-.
    apply Hsnoc; [reflexivity | reflexivity | assumption]. }
  assert (Hstop : forall method annotation t u t',
            True -> P t ->
            pushStopAnnotating method annotation t = Ok (u, t') -> P t').
  { intros method annotation t u t' _ Hp H.
    unfold pushStopAnnotating in H. injection H as _ <-.
    apply Hsnoc; [reflexivity | reflexivity | assumption]. }
  assert (Hnew : P newTransaction) by reflexivity.
  intros H. change (P tx).
  destruct call as [offset insertion | range | offset key value
                   | range method annotation | range type attr];
    simpl in H.
  - eapply (@newFromInsertion_invariant P (fun _ _ => True)); eauto.
  - eapply (@newFromRemoval_invariant P (fun _ _ => True)); eauto.
  - eapply (@newFromAttributeChange_invariant P (fun _ _ _ => True));
      eauto.
  - eapply (@newFromAnnotation_invariant P (fun _ _ => True)); eauto.
  - eapply (@newFromContentBranchConversion_invariant P (fun _ _ => True));
      eauto.
Qed.

(** [builders_record_canonical_operations] on the removal of 2..6 from the
    two paragraphs. *)
Lemma builders_record_canonical_operations_witness :
  exists tx,
    callBuilder twoParagraphsDocument
      (RemovalCall {| start := 2; end_ := 6 |}) = Ok tx /\
    canonicalOps (operations tx) = true /\
    recorded (operations tx) = operations tx.
Proof.
  eexists. split; [reflexivity|].
  apply (@builders_record_canonical_operations twoParagraphsDocument
           (RemovalCall {| start := 2; end_ := 6 |})).
  reflexivity.
Defined.

(** ** Each builder records its own kinds of operations *)

Lemma Forall_withRetain (A : Operation -> Prop) (ops : list Operation)
    (length : Z) :
  (forall n, A (OpRetain n)) ->
  Forall A ops -> Forall A (withRetain ops length).
Proof.
  intros Hretain Hops. unfold withRetain.
  destruct (rev ops) as [|last before] eqn:E.
  - apply Forall_app. split; [assumption | constructor; [apply Hretain|constructor]].
  - assert (Hsplit : ops = rev before ++ [last]).
    { rewrite <- (rev_involutive ops), E. reflexivity. }
    destruct last;
      try (apply Forall_app; split;
           [assumption | constructor; [apply Hretain | constructor]]).
    rewrite Hsplit in Hops. apply Forall_app in Hops.
    apply Forall_app. split; [apply Hops|].
    constructor; [apply Hretain | constructor].
Qed.

Lemma removedItems_app (ops1 ops2 : list Operation) :
  removedItems (ops1 ++ ops2) = removedItems ops1 + removedItems ops2.
Proof.
  induction ops1 as [|op ops1 IH]; simpl; [reflexivity|].
  destruct op; rewrite IH; lia.
Qed.

Lemma removedItems_nonneg (ops : list Operation) : 0 <= removedItems ops.
Proof.
  induction ops as [|op ops IH]; simpl; [lia|].
  destruct op; try assumption. pose proof (len_nonneg remove). lia.
Qed.

(** For every call of a builder that returns, each operation of the
    transaction is a retain or an operation of that builder's own kind: an
    insertion records replaces that remove nothing and insert the fixed-up
    data, a removal records replaces that insert nothing, an attribute
    change records attribute operations for its key and new value, an
    annotation records start and stop operations for its method and
    annotation, and a conversion records replaces of one item by the new
    opening or closing element. *)
Theorem builders_record_own_operations
    (doc : Document) (call : BuilderCall) (tx : Transaction) :
  callBuilder doc call = Ok tx ->
  Forall (ownOperation doc call) (operations tx).
Proof.
  set (P := fun t : Transaction =>
              Forall (ownOperation doc call) (operations t)).
  set (replaceable := fun remove insert =>
                        ownOperation doc call (OpReplace remove insert)).
  set (changeable := fun key from to =>
                       ownOperation doc call (OpAttribute key from to)).
  set (annotatable := fun method annotation =>
                        ownOperation doc call
                          (OpAnnotate method "start" annotation) /\
                        ownOperation doc call
                          (OpAnnotate method "stop" annotation)).
  assert (Hsnoc : forall t op, ownOperation doc call op -> P t ->
            P {| operations := operations t ++ [op];
                 lengthDifference := lengthDifference t |}).
  { unfold P. intros t op Hop Hp. simpl.
    apply Forall_app. split; [assumption | constructor; [assumption|constructor]]. }
  assert (Hretain : forall length t u t',
            P t -> pushRetain length t = Ok (u, t') -> P t').
  { unfold P. intros length t u t' Hp H.
    destruct (Z.lt_trichotomy length 0) as [Hneg | [-> | Hpos]].
    - rewrite pushRetain_negative in H by assumption. discriminate.
    - rewrite pushRetain_zero in H. injection H as _ <-. assumption.
    - rewrite pushRetain_positive in H by assumption. injection H as _ <-.
      apply Forall_withRetain; [intros n; exact I | assumption]. }
  assert (Hreplace : forall remove insert t u t',
            replaceable remove insert -> P t ->
            pushReplace remove insert t = Ok (u, t') -> P t').
  { intros remove insert t u t' Hq Hp H. unfold pushReplace in H.
    destruct ((len remove =? 0) && (len insert =? 0));
      injection H as _ <-; [assumption|].
    unfold P. simpl. apply Forall_app.
    split; [assumption | constructor; [exact Hq|constructor]]. }
  assert (Hattribute : forall key from to t u t',
            changeable key from to -> P t ->
            pushReplaceElementAttribute key from to t = Ok (u, t') -> P t').
  { intros key from to t u t' Hq Hp H.
    unfold pushReplaceElementAttribute in H. injection H as _ <-.
    apply Hsnoc; assumption. }
  assert (Hstart : forall method annotation t u t',
            annotatable method annotation -> P t ->
            pushStartAnnotating method annotation t = Ok (u, t') -> P t').
  { intros method annotation t u t' Hq Hp H.
    unfold pushStartAnnotating in H. injection H as _ <-.
    apply Hsnoc; [apply Hq | assumption]. }
  assert (Hstop : forall method annotation t u t',
            annotatable method annotation -> P t ->
            pushStopAnnotating method annotation t = Ok (u, t') -> P t').
  { intros method annotation t u t' Hq Hp H.
    unfold pushStopAnnotating in H. injection H as _ <-.
    apply Hsnoc; [apply Hq | assumption]. }
  assert (Hnew : P newTransaction) by constructor.
  intros H. change (P tx).
  destruct call as [offset insertion | range | offset key value
                   | range method annotation | range type attr];
    simpl in H.
  - eapply (@newFromInsertion_invariant P replaceable); eauto.
    split; reflexivity.
  - eapply (@newFromRemoval_invariant P replaceable); eauto.
    intros remove. reflexivity.
  - eapply (@newFromAttributeChange_invariant P changeable); eauto.
    intros from. split; reflexivity.
  - eapply (@newFromAnnotation_invariant P annotatable); eauto.
    split; (split; [reflexivity | split; [reflexivity|]]);
      [left | right]; reflexivity.
  - eapply (@newFromContentBranchConversion_invariant P replaceable);
      eauto.
    + intros removed. exists removed, (IElement type (openingAttributes attr)).
      split; [reflexivity | split; [reflexivity | left; reflexivity]].
    + intros removed.
      exists removed, (IElement (String.append "/" type) None).
      split; [reflexivity | split; [reflexivity | right; reflexivity]].
Qed.

(** [builders_record_own_operations] on the conversion of the heading and
    the three paragraphs to preformatted blocks. *)
Lemma builders_record_own_operations_witness :
  exists tx,
    callBuilder mixedDocument
      (ContentBranchConversionCall {| start := 2; end_ := 12 |}
         "preformatted" VUndefined) = Ok tx /\
    Forall (ownOperation mixedDocument
              (ContentBranchConversionCall {| start := 2; end_ := 12 |}
                 "preformatted" VUndefined))
           (operations tx).
Proof.
  eexists. split; [reflexivity|].
  apply (@builders_record_own_operations mixedDocument
           (ContentBranchConversionCall {| start := 2; end_ := 12 |}
              "preformatted" VUndefined)).
  reflexivity.
Defined.

(** ** The sign of [lengthDifference] *)

Lemma removedItems_replaces (ops : list Operation) :
  removedItems ops = removedItems (replaces ops).
Proof.
  induction ops as [|op ops IH]; [reflexivity|].
  destruct op; simpl; rewrite IH; reflexivity.
Qed.

(** An insertion that returns lengthens the document by the length of the
    fixed-up data; a removal that returns shortens it by the number of items
    its replaces remove, and never lengthens it; a conversion that returns
    leaves the length as it is, each marker being replaced by one marker. *)
Theorem lengthDifference_by_builder (doc : Document) (tx : Transaction) :
  (forall offset insertion,
     newFromInsertion doc offset insertion = Ok tx ->
     lengthDifference tx = len (fixupInsertion doc insertion offset)) /\
  (forall range,
     newFromRemoval doc range = Ok tx ->
     lengthDifference tx = - removedItems (operations tx) /\
     lengthDifference tx <= 0) /\
  (forall range type attr,
     newFromContentBranchConversion doc range type attr = Ok tx ->
     lengthDifference tx = 0).
Proof.
  split; [|split].
  - intros offset insertion H. unfold newFromInsertion in H.
    apply build_Ok in H. destruct H as [u H].
    tx_inversion. simpl in *. rewrite len_nil in *. lia.
  - intros range H.
    assert (Hsum : lengthDifference tx = - removedItems (operations tx)).
    { revert H.
      apply (@newFromRemoval_invariant
               (fun t => lengthDifference t = - removedItems (operations t))
               (fun remove insert => insert = [])).
      - intros length t u t' Hp H.
        apply pushRetain_Ok in H. destruct H as (_ & _ & Hr & Hd).
        rewrite Hd, Hp, removedItems_replaces, <- Hr,
          <- removedItems_replaces.
        reflexivity.
      - intros remove insert t u t' -> Hp H. unfold pushReplace in H.
        destruct ((len remove =? 0) && (len (@nil Item) =? 0)) eqn:E;
          injection H as _ <-.
        + assumption.
        + simpl. rewrite removedItems_app, Hp. simpl. lia.
      - intros remove. reflexivity.
      - reflexivity. }
    split; [exact Hsum|].
    pose proof (removedItems_nonneg (operations tx)). lia.
  - intros range type attr.
    apply (@newFromContentBranchConversion_invariant
             (fun t => lengthDifference t = 0)
             (fun remove insert => len remove = len insert)).
    + intros length t u t' Hp H.
      apply pushRetain_Ok in H. destruct H as (_ & _ & _ & Hd). lia.
    + intros remove insert t u t' Hq Hp H.
      apply pushReplace_Ok in H. destruct H as (_ & Hd). lia.
    + intros removed. reflexivity.
    + intros removed. reflexivity.
    + reflexivity.
Qed.

(** [lengthDifference_by_builder] on an insertion, a removal and a
    conversion. *)
Lemma lengthDifference_by_builder_witness :
  (exists tx,
     newFromInsertion paragraphDocument 2 [IContent "b" []] = Ok tx /\
     lengthDifference tx = 1) /\
  (exists tx,
     newFromRemoval mixedDocument {| start := 2; end_ := 12 |} = Ok tx /\
     lengthDifference tx = - removedItems (operations tx) /\
     lengthDifference tx <= 0) /\
  (exists tx,
     newFromContentBranchConversion mixedDocument
       {| start := 2; end_ := 12 |} "preformatted" VUndefined = Ok tx /\
     lengthDifference tx = 0).
Proof.
  split; [|split].
  - eexists. split; [reflexivity|].
    apply (proj1 (lengthDifference_by_builder paragraphDocument _)
             2 [IContent "b" []]).
    reflexivity.
  - eexists. split; [reflexivity|].
    apply (proj1 (proj2 (lengthDifference_by_builder mixedDocument _))
             {| start := 2; end_ := 12 |}).
    reflexivity.
  - eexists. split; [reflexivity|].
    apply (proj2 (proj2 (lengthDifference_by_builder mixedDocument _))
             {| start := 2; end_ := 12 |} "preformatted"%string VUndefined).
    reflexivity.
Defined.

(** ** Offsets outside the document *)

(** [newFromInsertion] returns exactly for the offsets from 0 to the length
    of the data.  A negative offset is refused by the first retain, an
    offset past the end by the last one, each with the invalid-retain error
    carrying the negative length it was asked to retain. *)
Theorem newFromInsertion_bounds (doc : Document) (offset : Z)
    (insertion : list Item) :
  (offset < 0 ->
   newFromInsertion doc offset insertion = Err (InvalidRetain offset)) /\
  (len (getData doc) < offset ->
   newFromInsertion doc offset insertion =
     Err (InvalidRetain (len (getData doc) - offset))) /\
  ((exists tx, newFromInsertion doc offset insertion = Ok tx) <->
   0 <= offset <= len (getData doc)).
Proof.
  assert (Hnegative : offset < 0 ->
            newFromInsertion doc offset insertion =
              Err (InvalidRetain offset)).
  { intros H. unfold newFromInsertion, build, bind.
    rewrite pushRetain_negative by assumption. reflexivity. }
  assert (Hbeyond : len (getData doc) < offset ->
            newFromInsertion doc offset insertion =
              Err (InvalidRetain (len (getData doc) - offset))).
  { intros H. pose proof (len_nonneg (getData doc)) as Hlen.
    unfold newFromInsertion, build, bind.
    destruct (pushRetain offset newTransaction) as [[u tx1] | e] eqn:E1.
    - destruct (pushReplace [] (fixupInsertion doc insertion offset) tx1)
        as [[u2 tx2] | e] eqn:E2.
      + rewrite pushRetain_negative by lia. reflexivity.
      + unfold pushReplace in E2.
        destruct ((len (@nil Item) =? 0) && _); discriminate E2.
    - rewrite pushRetain_positive in E1 by lia. discriminate E1. }
  split; [exact Hnegative | split; [exact Hbeyond|]].
  split.
  - intros [tx H].
    destruct (Z.lt_ge_cases offset 0) as [Hneg | Hpos].
    { rewrite Hnegative in H by assumption. discriminate H. }
    destruct (Z.lt_ge_cases (len (getData doc)) offset) as [Hbig | Hsmall].
    { rewrite Hbeyond in H by assumption. discriminate H. }
    lia.
  - intros Hinside. unfold newFromInsertion, build.
    rewrite retain_replace_retain by lia. eexists. reflexivity.
Qed.

(** [newFromInsertion_bounds] on the paragraph document, whose data has
    three items. *)
Lemma newFromInsertion_bounds_witness :
  newFromInsertion paragraphDocument (-1) [IContent "b" []] =
    Err (InvalidRetain (-1)) /\
  newFromInsertion paragraphDocument 5 [IContent "b" []] =
    Err (InvalidRetain (-2)) /\
  (exists tx, newFromInsertion paragraphDocument 3 [IContent "b" []] = Ok tx).
Proof.
  split; [|split].
  - apply (proj1 (newFromInsertion_bounds paragraphDocument (-1)
                    [IContent "b" []])).
    reflexivity.
  - apply (proj1 (proj2 (newFromInsertion_bounds paragraphDocument 5
                           [IContent "b" []]))).
    reflexivity.
  - apply (proj2 (proj2 (newFromInsertion_bounds paragraphDocument 3
                           [IContent "b" []]))).
    split; discriminate.
Defined.

(** [newFromAttributeChange] returns exactly when the item at the offset is
    an element whose type does not begin with '/'.  At an offset outside
    the data, where there is no item, it fails with the engine's TypeError
    and not with one of its own two messages. *)
Theorem newFromAttributeChange_bounds (doc : Document) (offset : Z)
    (key : string) (value : Value) :
  (offset < 0 \/ len (getData doc) <= offset ->
   newFromAttributeChange doc offset key value = Err TypeError) /\
  ((exists tx, newFromAttributeChange doc offset key value = Ok tx) <->
   exists type attributes,
     index (getData doc) offset = IElement type attributes /\
     isClosingType type = false).
Proof.
  split.
  - intros Houtside.
    assert (Hitem : index (getData doc) offset = IUndefined).
    { unfold index, len in *.
      destruct (Z.ltb_spec offset 0) as [Hneg | Hpos]; [reflexivity|].
      apply nth_overflow. lia. }
    unfold newFromAttributeChange, build, bind, lift.
    rewrite Hitem. reflexivity.
  - split.
    + intros [tx H]. unfold newFromAttributeChange in H.
      apply build_Ok in H. destruct H as [u H].
      apply bind_Ok in H. destruct H as (type & tx1 & Htype & H).
      apply lift_Ok in Htype. destruct Htype as [Htype <-].
      destruct (index (getData doc) offset) as [| |type' attributes];
        try discriminate Htype.
      * injection Htype as <-. discriminate H.
      * injection Htype as <-.
        exists type', attributes. split; [reflexivity|].
        destruct (isClosingType type'); [discriminate H | reflexivity].
    + intros (type & attributes & Hitem & Hopen).
      assert (Hin : 0 <= offset < len (getData doc)).
      { apply index_defined. rewrite Hitem. discriminate. }
      unfold newFromAttributeChange, build, bind, lift.
      rewrite Hitem. simpl itemType. cbv iota. rewrite Hopen.
      destruct (pushRetain offset newTransaction) as [[u tx1] | e] eqn:E1.
      * unfold pushReplaceElementAttribute.
        rewrite pushRetain_positive by lia. eexists. reflexivity.
      * destruct (Z.eq_dec offset 0) as [-> | Hnz].
        -- rewrite pushRetain_zero in E1. discriminate E1.
        -- rewrite pushRetain_positive in E1 by lia. discriminate E1.
Qed.

(** [newFromAttributeChange_bounds] on the heading document, whose data has
    six items. *)
Lemma newFromAttributeChange_bounds_witness :
  newFromAttributeChange headingDocument 6 "level" (VNum 2) =
    Err TypeError /\
  newFromAttributeChange headingDocument (-1) "level" (VNum 2) =
    Err TypeError /\
  (exists tx,
     newFromAttributeChange headingDocument 3 "level" (VNum 2) = Ok tx).
Proof.
  split; [|split].
  - apply (proj1 (newFromAttributeChange_bounds headingDocument 6
                    "level" (VNum 2))).
    right. discriminate.
  - apply (proj1 (newFromAttributeChange_bounds headingDocument (-1)
                    "level" (VNum 2))).
    left. reflexivity.
  - apply (proj2 (proj2 (newFromAttributeChange_bounds headingDocument 3
                           "level" (VNum 2)))).
    exists "heading"%string, (Some [("level"%string, VNum 1)]).
    split; reflexivity.
Defined.

(** ** Retains add up *)

(** Two retains pushed one after the other leave the transaction as one
    retain of the sum does, be its last operation a retain or not, as long
    as the retain that comes out is at most [maxSafeInteger]: up to there
    the numbers are added exactly, in whatever order. *)
Theorem pushRetain_adds_up (a b : Z) (tx : Transaction) :
  0 <= a -> 0 <= b ->
  0 <= lastRetain (operations tx) ->
  lastRetain (operations tx) + a + b <= maxSafeInteger ->
  (pushRetain a ;; pushRetain b) tx = pushRetain (a + b) tx.
Proof.
  intros Ha Hb _ _. unfold bind.
  destruct (Z.eq_dec a 0) as [-> | Hna].
  { rewrite pushRetain_zero. reflexivity. }
  destruct (Z.eq_dec b 0) as [-> | Hnb].
  { rewrite Z.add_0_r. destruct (pushRetain a tx) as [[[] tx1] | e];
      [rewrite pushRetain_zero|]; reflexivity. }
  rewrite !pushRetain_positive by lia. simpl operations.
  f_equal. f_equal. f_equal.
  unfold withRetain at 2 3.
  destruct (rev (operations tx)) as [|last before] eqn:E.
  - rewrite withRetain_after_retain. reflexivity.
  - destruct last as [n| | |];
      rewrite withRetain_after_retain; try reflexivity.
    rewrite Z.add_assoc. reflexivity.
Qed.

(** [pushRetain_adds_up] after a retain and after a replace. *)
Lemma pushRetain_adds_up_witness :
  0 <= lastRetain [OpRetain 1] /\
  lastRetain [OpRetain 1] + 2 + 3 <= maxSafeInteger /\
  (pushRetain 2 ;; pushRetain 3)
    {| operations := [OpRetain 1]; lengthDifference := 0 |} =
    Ok (tt, {| operations := [OpRetain 6]; lengthDifference := 0 |}) /\
  (pushRetain 2 ;; pushRetain 3)
    {| operations := [OpReplace [] [IContent "a" []]];
       lengthDifference := 1 |} =
    Ok (tt, {| operations := [OpReplace [] [IContent "a" []]; OpRetain 5];
               lengthDifference := 1 |}).
Proof.
  split; [discriminate | split; [discriminate | split]].
  - rewrite (@pushRetain_adds_up 2 3
               {| operations := [OpRetain 1]; lengthDifference := 0 |})
      by (try lia; discriminate).
    reflexivity.
  - rewrite (@pushRetain_adds_up 2 3
               {| operations := [OpReplace [] [IContent "a" []]];
                  lengthDifference := 1 |})
      by (try lia; discriminate).
    reflexivity.
Defined.

(** ** Removal inside one node *)



(** ** [newFromContentBranchConversion] branch by branch *)

Section Conversion.

Variable doc : Document.
Variable opening closing : Item.

Let data := getData doc.



End Conversion.



(** ** [newFromAnnotation]: when it returns *)

Lemma pushRetain_total (length : Z) (tx : Transaction) :
  0 <= length -> exists tx', pushRetain length tx = Ok (tt, tx').
Proof.
  intros H. destruct (Z.eq_dec length 0) as [-> | Hnz].
  - exists tx. reflexivity.
  - rewrite pushRetain_positive by lia. eexists. reflexivity.
Qed.

(** Over items that are all there, the loop runs to its end whatever the
    method is. *)
Lemma annotationLoop_total (doc : Document) (method : string)
    (annotation : Value) (steps : nat) :
  forall (i span : Z) (on : bool) (tx : Transaction),
    0 <= span ->
    (forall j, i <= j < i + Z.of_nat steps ->
               index (getData doc) j <> IUndefined) ->
    exists span' on' tx',
      annotationLoop doc method annotation steps i span on tx =
        Ok ((span', on'), tx') /\ 0 <= span'.
Proof.
  induction steps as [|steps IH]; intros i span on tx Hspan Hitems.
  - exists span, on, tx. split; [reflexivity | assumption].
  - assert (Hitem : index (getData doc) i <> IUndefined)
      by (apply Hitems; lia).
    assert (Hclose :
      exists tx1,
        (pushRetain span ;; pushStopAnnotating method annotation ;;
         ret (0, false)) tx = Ok ((0, false), tx1)).
    { destruct (@pushRetain_total _ tx Hspan) as [tx1 H1].
      unfold bind. rewrite H1. eexists. reflexivity. }
    assert (Hopen :
      exists tx1,
        (pushRetain span ;; pushStartAnnotating method annotation ;;
         ret (0, true)) tx = Ok ((0, true), tx1)).
    { destruct (@pushRetain_total _ tx Hspan) as [tx1 H1].
      unfold bind. rewrite H1. eexists. reflexivity. }
    assert (Hstep :
      exists span1 on1 tx1, 0 <= span1 /\
        annotationLoop doc method annotation (S steps) i span on tx =
        annotationLoop doc method annotation steps (i + 1) (span1 + 1) on1
          tx1).
    { simpl annotationLoop.
      destruct (index (getData doc) i) as [|character annotations|type attrs];
        [contradiction Hitem; reflexivity| |];
        unfold bind at 1; unfold lift; simpl itemType; cbv iota.
      - destruct ((offsetContainsAnnotation doc i annotation
                   && String.eqb method "set")
                  || (negb (offsetContainsAnnotation doc i annotation)
                      && String.eqb method "clear"));
          destruct on; cbn [negb]; unfold bind at 1.
        + destruct Hclose as [tx1 ->]. exists 0, false, tx1.
          split; [lia | reflexivity].
        + exists span, false, tx. split; [assumption | reflexivity].
        + exists span, true, tx. split; [assumption | reflexivity].
        + destruct Hopen as [tx1 ->]. exists 0, true, tx1.
          split; [lia | reflexivity].
      - destruct on; unfold bind at 1.
        + destruct Hclose as [tx1 ->]. exists 0, false, tx1.
          split; [lia | reflexivity].
        + exists span, false, tx. split; [assumption | reflexivity]. }
    destruct Hstep as (span1 & on1 & tx1 & Hspan1 & ->).
    apply IH; [lia|]. intros j Hj. apply Hitems. lia.
Qed.

(** On a document whose data has an item at every index, as every data
    array has, [newFromAnnotation] returns exactly when the normalized
    range lies inside the document, whatever the method is. *)
Theorem newFromAnnotation_bounds (doc : Document) (range : Range)
    (method : string) (annotation : Value) :
  Forall (fun item => item <> IUndefined) (getData doc) ->
  ((exists tx, newFromAnnotation doc range method annotation = Ok tx) <->
   0 <= start (normalize range) /\
   end_ (normalize range) <= len (getData doc)).
Proof.
  intros Hdata. split.
  - intros [tx H].
    apply newFromAnnotation_Ok_inside in H.
    destruct H as (Hstart & Hend & _). split; assumption.
  - intros [Hstart Hend].
    pose proof (normalize_ordered range) as Hordered.
    assert (Hitems : forall j,
              start (normalize range) <= j
              < start (normalize range)
                + Z.of_nat (Z.to_nat (end_ (normalize range)
                                      - start (normalize range))) ->
              index (getData doc) j <> IUndefined).
    { intros j Hj. unfold index.
      replace (j <? 0) with false by (symmetry; apply Z.ltb_ge; lia).
      rewrite Forall_forall in Hdata. apply Hdata. apply nth_In.
      unfold len in Hend. lia. }
    destruct (@annotationLoop_total doc method annotation _ _ _ false
                newTransaction Hstart Hitems)
      as (span & on & tx1 & Hloop & Hspan).
    unfold newFromAnnotation, build, bind. rewrite Hloop.
    destruct (@pushRetain_total _ tx1 Hspan) as [tx2 ->].
    destruct on.
    + unfold pushStopAnnotating.
      edestruct pushRetain_total as [tx3 ->]; [|eexists; reflexivity]. lia.
    + unfold ret.
      edestruct pushRetain_total as [tx3 ->]; [|eexists; reflexivity]. lia.
Qed.

(** [newFromAnnotation_bounds] on the bold document, whose data has eight
    items: a range up to 8 is accepted, even with a method that is neither
    'set' nor 'clear'. *)
Lemma newFromAnnotation_bounds_witness :
  exists tx,
    newFromAnnotation boldDocument {| start := 8; end_ := 0 |} "toggle" bold
    = Ok tx.
Proof.
  apply (proj2 (@newFromAnnotation_bounds boldDocument
                  {| start := 8; end_ := 0 |} "toggle" bold
                  ltac:(repeat constructor; discriminate))).
  split; discriminate.
Defined.

(** ** [newFromAnnotation]: starts and stops are paired *)

Lemma bracketState_snoc (ops : list Operation) (op : Operation) :
  bracketState (ops ++ [op]) = bracketStep (bracketState ops) op.
Proof. unfold bracketState. rewrite fold_left_app. reflexivity. Qed.

(** Outside any pair, a retain leaves the walk outside. *)
Lemma pushRetain_outside (length : Z) (tx tx' : Transaction) (u : unit) :
  bracketState (operations tx) = Some Outside ->
  pushRetain length tx = Ok (u, tx') ->
  bracketState (operations tx') = Some Outside.
Proof.
  intros Hstate H.
  destruct (Z.lt_trichotomy length 0) as [Hneg | [-> | Hpos]].
  - rewrite pushRetain_negative in H by assumption. discriminate.
  - rewrite pushRetain_zero in H. injection H as _ <-. assumption.
  - rewrite pushRetain_positive in H by assumption. injection H as _ <-.
    simpl operations. unfold withRetain.
    destruct (rev (operations tx)) as [|last before] eqn:E.
    + rewrite bracketState_snoc, Hstate. reflexivity.
    + assert (Hops : operations tx = rev before ++ [last]).
      { rewrite <- (rev_involutive (operations tx)), E. reflexivity. }
      destruct last as [n| | |];
        try (rewrite bracketState_snoc, Hstate; reflexivity).
      rewrite Hops, bracketState_snoc in Hstate.
      rewrite bracketState_snoc.
      destruct (bracketState (rev before)) as [[| |]|];
        try discriminate Hstate; reflexivity.
Qed.

(** Right after a start, a retain of positive length is recorded on its
    own and takes the walk inside the pair. *)
Lemma pushRetain_opened (length : Z) (tx tx' : Transaction) (u : unit) :
  0 < length ->
  bracketState (operations tx) = Some Opened ->
  pushRetain length tx = Ok (u, tx') ->
  bracketState (operations tx') = Some Inside.
Proof.
  intros Hpos Hstate H.
  rewrite pushRetain_positive in H by assumption. injection H as _ <-.
  simpl operations. unfold withRetain.
  destruct (rev (operations tx)) as [|last before] eqn:E.
  - rewrite bracketState_snoc, Hstate. reflexivity.
  - assert (Hops : operations tx = rev before ++ [last]).
    { rewrite <- (rev_involutive (operations tx)), E. reflexivity. }
    destruct last as [n| | |];
      try (rewrite bracketState_snoc, Hstate; reflexivity).
    rewrite Hops, bracketState_snoc in Hstate.
    destruct (bracketState (rev before)) as [[| |]|]; discriminate Hstate.
Qed.

Ltac pair_equations :=
  repeat match goal with
    | E : (_, _) = (_, _) |- _ => injection E; clear E; intros; subst
    end.

Section AnnotationBrackets.

Variable doc : Document.
Variable method : string.
Variable annotation : Value.

(** The state of the walk that goes with the loop's [on]. *)
Let stateOf (on : bool) : option Bracket :=
  Some (if on then Opened else Outside).

Lemma annotationLoop_brackets (steps : nat) :
  forall (i span : Z) (on : bool) (tx tx' : Transaction)
         (span' : Z) (on' : bool),
    bracketState (operations tx) = stateOf on ->
    (on = true -> 0 < span) ->
    annotationLoop doc method annotation steps i span on tx =
      Ok ((span', on'), tx') ->
    bracketState (operations tx') = stateOf on' /\
    (on' = true -> 0 < span').
Proof.
  induction steps as [|steps IH];
    intros i span on tx tx' span' on' Hstate Hspan H.
  - simpl in H. apply ret_Ok in H. destruct H as [E <-].
    injection E as <- <-. split; assumption.
  - simpl annotationLoop in H.
    apply bind_Ok in H. destruct H as (type & tx1 & Htype & H).
    apply lift_Ok in Htype. destruct Htype as [_ <-].
    apply bind_Ok in H. destruct H as ([span1 on1] & tx2 & Hstep & H).
    apply IH in H; [exact H| |].
    + (* the state after the step *)
      assert (Hclose : forall t,
        on = true ->
        (pushRetain span ;; pushStopAnnotating method annotation ;;
         ret (0, false)) tx = Ok ((span1, on1), t) ->
        bracketState (operations t) = stateOf on1).
      { intros t Eon Hrun. subst on.
        apply bind_Ok in Hrun. destruct Hrun as (u1 & t1 & Hretain & Hrun).
        eapply pushRetain_opened in Hretain;
          [|apply Hspan; reflexivity | exact Hstate].
        apply bind_Ok in Hrun. destruct Hrun as (u2 & t2 & Hstop & Hrun).
        unfold pushStopAnnotating in Hstop. injection Hstop as _ <-.
        apply ret_Ok in Hrun. destruct Hrun as [E <-]. injection E as _ <-.
        simpl operations. rewrite bracketState_snoc, Hretain.
        reflexivity. }
      assert (Hopen : forall t,
        on = false ->
        (pushRetain span ;; pushStartAnnotating method annotation ;;
         ret (0, true)) tx = Ok ((span1, on1), t) ->
        bracketState (operations t) = stateOf on1).
      { intros t Eon Hrun. subst on.
        apply bind_Ok in Hrun. destruct Hrun as (u1 & t1 & Hretain & Hrun).
        eapply pushRetain_outside in Hretain; [|exact Hstate].
        apply bind_Ok in Hrun. destruct Hrun as (u2 & t2 & Hstart & Hrun).
        unfold pushStartAnnotating in Hstart. injection Hstart as _ <-.
        apply ret_Ok in Hrun. destruct Hrun as [E <-]. injection E as _ <-.
        simpl operations. rewrite bracketState_snoc, Hretain.
        reflexivity. }
      assert (Hkeep : forall t,
        ret (span, on) tx = Ok ((span1, on1), t) ->
        bracketState (operations t) = stateOf on1).
      { intros t Hrun. apply ret_Ok in Hrun. destruct Hrun as [E <-].
        injection E as _ <-. assumption. }
      destruct type as [type|].
      * destruct on; [apply Hclose | apply Hkeep]; auto.
      * destruct ((offsetContainsAnnotation doc i annotation
                   && String.eqb method "set")
                  || (negb (offsetContainsAnnotation doc i annotation)
                      && String.eqb method "clear"));
          destruct on; cbn [negb] in Hstep;
          [apply Hclose | apply Hkeep | apply Hkeep | apply Hopen]; auto.
    + (* the span after the step is the span of at least one item *)
      intros Eon1.
      destruct type as [type|].
      * destruct on; tx_inversion; pair_equations;
          try discriminate Eon1; try lia; specialize (Hspan eq_refl); lia.
      * destruct ((offsetContainsAnnotation doc i annotation
                   && String.eqb method "set")
                  || (negb (offsetContainsAnnotation doc i annotation)
                      && String.eqb method "clear"));
          destruct on; cbn [negb] in Hstep; tx_inversion; pair_equations;
          try discriminate Eon1; try lia; specialize (Hspan eq_refl); lia.
Qed.

End AnnotationBrackets.

(** In every transaction [newFromAnnotation] returns, whatever the method
    and the range, the operations are retains and start/stop pairs that
    follow each other without nesting: each start is followed by exactly
    one retain and then by its stop, and no pair is left open. *)
Theorem newFromAnnotation_brackets (doc : Document) (range : Range)
    (method : string) (annotation : Value) (tx : Transaction) :
  newFromAnnotation doc range method annotation = Ok tx ->
  bracketState (operations tx) = Some Outside.
Proof.
  intros H. unfold newFromAnnotation in H.
  apply build_Ok in H. destruct H as [u H].
  apply bind_Ok in H. destruct H as ([span on] & tx1 & Hloop & H).
  apply annotationLoop_brackets in Hloop;
    [|reflexivity | discriminate].
  destruct Hloop as [Hstate Hspan].
  apply bind_Ok in H. destruct H as (u1 & tx2 & Hretain & H).
  apply bind_Ok in H. destruct H as (u2 & tx3 & Hstop & H).
  destruct on.
  - eapply pushRetain_opened in Hretain;
      [|apply Hspan; reflexivity | exact Hstate].
    unfold pushStopAnnotating in Hstop. injection Hstop as _ <-.
    eapply pushRetain_outside; [|exact H].
    simpl operations. rewrite bracketState_snoc, Hretain. reflexivity.
  - eapply pushRetain_outside in Hretain; [|exact Hstate].
    apply ret_Ok in Hstop. destruct Hstop as [_ <-].
    eapply pushRetain_outside; [exact Hretain | exact H].
Qed.

(** [newFromAnnotation_brackets] on the bold document, with a method that
    is neither 'set' nor 'clear': every content item is annotated, in three
    pairs that the element markers separate. *)
Lemma newFromAnnotation_brackets_witness :
  exists tx,
    newFromAnnotation boldDocument {| start := 0; end_ := 8 |} "toggle" bold
      = Ok tx /\
    operations tx =
      [OpRetain 1;
       OpAnnotate "toggle" "start" bold; OpRetain 3;
       OpAnnotate "toggle" "stop" bold;
       OpRetain 2;
       OpAnnotate "toggle" "start" bold; OpRetain 1;
       OpAnnotate "toggle" "stop" bold;
       OpRetain 1] /\
    bracketState (operations tx) = Some Outside.
Proof.
  eexists. split; [reflexivity|]. split; [reflexivity|].
  apply (@newFromAnnotation_brackets boldDocument
           {| start := 0; end_ := 8 |} "toggle" bold).
  reflexivity.
Defined.

(** ** [newFromAnnotation]: nothing to annotate *)

(** The transaction as the runs of the mask, for 'set' and 'clear'. *)
Lemma newFromAnnotation_as_runs (doc : Document) (range : Range)
    (method : string) (annotation : Value) :
  method = "set"%string \/ method = "clear"%string ->
  0 <= start (normalize range) ->
  end_ (normalize range) <= len (getData doc) ->
  (forall i, start (normalize range) <= i < end_ (normalize range) ->
             index (getData doc) i <> IUndefined) ->
  newFromAnnotation doc range method annotation =
    Ok {| operations :=
            flat_map (runOperations method annotation)
              (runs (annotationMask doc (normalize range) method
                       annotation));
          lengthDifference := 0 |}.
Proof.
  intros Hmethod Hstart Hend Hitems.
  pose proof (normalize_ordered range) as Hordered.
  unfold newFromAnnotation, build.
  change (bind (annotationLoop doc method annotation
                  (Z.to_nat (end_ (normalize range)
                             - start (normalize range)))
                  (start (normalize range)) (start (normalize range))
                  false) _ newTransaction)
    with (bind (annotationLoop doc method annotation
                  (Z.to_nat (end_ (normalize range)
                             - start (normalize range)))
                  (start (normalize range)) (start (normalize range))
                  false)
            (finishAnnotation method annotation
               (len (getData doc) - end_ (normalize range)))
            newTransaction).
  rewrite annotationLoop_runs; try assumption; try lia;
    try reflexivity; try discriminate.
  - simpl operations. simpl lengthDifference. unfold annotationMask.
    rewrite <- continueRuns_start, continueRuns_prefix.
    rewrite Z.add_0_l, Z2Nat.id by assumption.
    reflexivity.
  - intros j Hj. apply Hitems. lia.
Qed.

Lemma eligibleFrom_none (doc : Document) (method : string)
    (annotation : Value) (count : nat) :
  forall i,
    (forall j, i <= j < i + Z.of_nat count ->
               eligible doc method annotation j = false) ->
    eligibleFrom doc method annotation count i = repeat false count.
Proof.
  induction count as [|count IH]; intros i H; [reflexivity|].
  simpl. rewrite H by lia. rewrite IH; [reflexivity|].
  intros j Hj. apply H. lia.
Qed.

(** Setting an annotation that every content item in the range already
    carries, or clearing one that none of them carries, gives a transaction
    without any annotate operation: the retain of the whole document, or no
    operation at all when the document is empty. *)
Theorem newFromAnnotation_nothing_to_do (doc : Document) (range : Range)
    (method : string) (annotation : Value) :
  let data := getData doc in
  let normalized := normalize range in
  0 <= start normalized -> end_ normalized <= len data ->
  (forall i, start normalized <= i < end_ normalized ->
             index data i <> IUndefined) ->
  (method = "set"%string /\
   forall i character annotations,
     start normalized <= i < end_ normalized ->
     index data i = IContent character annotations ->
     offsetContainsAnnotation doc i annotation = true) \/
  (method = "clear"%string /\
   forall i character annotations,
     start normalized <= i < end_ normalized ->
     index data i = IContent character annotations ->
     offsetContainsAnnotation doc i annotation = false) ->
  newFromAnnotation doc range method annotation =
    Ok {| operations := retainOps (len data); lengthDifference := 0 |}.
Proof.
  intros data normalized Hstart Hend Hitems Hnothing.
  pose proof (normalize_ordered range) as Hordered.
  fold normalized in Hordered.
  assert (Hmethod : method = "set"%string \/ method = "clear"%string)
    by (destruct Hnothing as [[-> _] | [-> _]]; [left | right]; reflexivity).
  assert (Hnone : forall j, start normalized <= j < end_ normalized ->
                            eligible doc method annotation j = false).
  { intros j Hj. unfold eligible. fold data.
    destruct (index data j) as [|character annotations|type attributes]
      eqn:Eitem; try reflexivity.
    destruct Hnothing as [[-> Hall] | [-> Hall]];
      rewrite (Hall j character annotations Hj Eitem); reflexivity. }
  rewrite newFromAnnotation_as_runs by assumption.
  f_equal. f_equal.
  unfold annotationMask. fold normalized. fold data.
  rewrite eligibleFrom_none by (intros j Hj; apply Hnone; lia).
  rewrite <- !repeat_app, runs_repeat_false.
  unfold retainOps.
  destruct (Z.to_nat (start normalized)
            + (Z.to_nat (end_ normalized - start normalized)
               + Z.to_nat (len data - end_ normalized)))%nat
    as [|total] eqn:Etotal.
  - replace (len data =? 0) with true by (symmetry; apply Z.eqb_eq; lia).
    reflexivity.
  - replace (len data =? 0) with false by (symmetry; apply Z.eqb_neq; lia).
    replace (len data) with (Z.of_nat (S total)) by lia.
    reflexivity.
Qed.

(** [newFromAnnotation_nothing_to_do] on the bold document: setting bold on
    the 'b' that is bold already, and clearing bold from 'c' and the markers
    after it, which are not bold. *)
Lemma newFromAnnotation_nothing_to_do_witness :
  newFromAnnotation boldDocument {| start := 2; end_ := 3 |} "set" bold =
    Ok {| operations := [OpRetain 8]; lengthDifference := 0 |} /\
  newFromAnnotation boldDocument {| start := 3; end_ := 6 |} "clear" bold =
    Ok {| operations := [OpRetain 8]; lengthDifference := 0 |}.
Proof.
  split.
  - refine (@newFromAnnotation_nothing_to_do boldDocument
              {| start := 2; end_ := 3 |} "set" bold _ _ _ _).
    + discriminate.
    + discriminate.
    + intros i Hi. change (2 <= i < 3) in Hi.
      replace i with 2 by lia. discriminate.
    + left. split; [reflexivity|].
      intros i character annotations Hi _. change (2 <= i < 3) in Hi.
      replace i with 2 by lia. reflexivity.
  - refine (@newFromAnnotation_nothing_to_do boldDocument
              {| start := 3; end_ := 6 |} "clear" bold _ _ _ _).
    + discriminate.
    + discriminate.
    + intros i Hi. change (3 <= i < 6) in Hi.
      assert (Hcases : i = 3 \/ i = 4 \/ i = 5) by lia.
      destruct Hcases as [-> | [-> | ->]]; discriminate.
    + right. split; [reflexivity|].
      intros i character annotations Hi _. change (3 <= i < 6) in Hi.
      assert (Hcases : i = 3 \/ i = 4 \/ i = 5) by lia.
      destruct Hcases as [-> | [-> | ->]]; reflexivity.
Defined.

(** ** [newFromRemoval]: removals that touch are one replace *)

Lemma endsWithReplace_cons (op next : Operation) (ops : list Operation) :
  endsWithReplace (op :: next :: ops) = endsWithReplace (next :: ops).
Proof.
  unfold endsWithReplace. simpl rev.
  destruct (rev ops ++ [next]) as [|last others] eqn:E.
  - destruct (rev ops); discriminate E.
  - reflexivity.
Qed.

Lemma endsWithReplace_snoc (ops : list Operation) (op : Operation) :
  endsWithReplace (ops ++ [op]) = isReplace op.
Proof.
  unfold endsWithReplace. rewrite rev_app_distr. simpl.
  destruct op; reflexivity.
Qed.

Lemma noAdjacentReplaces_snoc (ops : list Operation) (op : Operation) :
  noAdjacentReplaces (ops ++ [op]) =
  noAdjacentReplaces ops && negb (endsWithReplace ops && isReplace op).
Proof.
  induction ops as [|first ops IH].
  - simpl. destruct (isReplace op); reflexivity.
  - destruct ops as [|next ops].
    + simpl. unfold endsWithReplace. simpl.
      destruct first, op; reflexivity.
    + change (noAdjacentReplaces ((first :: next :: ops) ++ [op]))
        with (negb (isReplace first && startsWithReplace (next :: ops))
              && noAdjacentReplaces ((next :: ops) ++ [op])).
      rewrite IH, endsWithReplace_cons.
      change (noAdjacentReplaces (first :: next :: ops))
        with (negb (isReplace first && startsWithReplace (next :: ops))
              && noAdjacentReplaces (next :: ops)).
      destruct (negb (isReplace first && startsWithReplace (next :: ops))),
        (noAdjacentReplaces (next :: ops)),
        (negb (endsWithReplace (next :: ops) && isReplace op)); reflexivity.
Qed.

(** What [pushRetain] does to the two facts the loop relies on. *)
Lemma pushRetain_apart (length : Z) (tx tx' : Transaction) (u : unit) :
  noAdjacentReplaces (operations tx) = true ->
  pushRetain length tx = Ok (u, tx') ->
  noAdjacentReplaces (operations tx') = true /\
  ((endsWithReplace (operations tx) = true -> length <> 0) ->
   endsWithReplace (operations tx') = false).
Proof.
  intros Hapart H.
  destruct (Z.lt_trichotomy length 0) as [Hneg | [-> | Hpos]].
  - rewrite pushRetain_negative in H by assumption. discriminate.
  - rewrite pushRetain_zero in H. injection H as _ <-.
    split; [assumption|]. intros Hgap.
    destruct (endsWithReplace (operations tx)); [|reflexivity].
    contradiction (Hgap eq_refl). reflexivity.
  - rewrite pushRetain_positive in H by assumption. injection H as _ <-.
    simpl operations. unfold withRetain.
    destruct (rev (operations tx)) as [|last before] eqn:E.
    + rewrite noAdjacentReplaces_snoc, endsWithReplace_snoc, Hapart.
      simpl. rewrite andb_false_r. split; reflexivity.
    + assert (Hops : operations tx = rev before ++ [last]).
      { rewrite <- (rev_involutive (operations tx)), E. reflexivity. }
      destruct last as [n| | |];
        try (rewrite noAdjacentReplaces_snoc, endsWithReplace_snoc, Hapart;
             simpl; rewrite andb_false_r; split; reflexivity).
      rewrite Hops, noAdjacentReplaces_snoc in Hapart.
      apply andb_prop in Hapart. destruct Hapart as [Hbefore _].
      rewrite noAdjacentReplaces_snoc, endsWithReplace_snoc, Hbefore.
      simpl. rewrite andb_false_r. split; reflexivity.
Qed.

Lemma pushReplace_apart (remove insert : list Item) (tx tx' : Transaction)
    (u : unit) :
  noAdjacentReplaces (operations tx) = true ->
  endsWithReplace (operations tx) = false ->
  pushReplace remove insert tx = Ok (u, tx') ->
  noAdjacentReplaces (operations tx') = true.
Proof.
  intros Hapart Hends H. unfold pushReplace in H.
  destruct ((len remove =? 0) && (len insert =? 0));
    injection H as _ <-; [assumption|].
  simpl operations. rewrite noAdjacentReplaces_snoc, Hapart, Hends.
  reflexivity.
Qed.

Lemma removalLoop_apart (data : list Item) (selection : list Selected) :
  forall offset pending tx offset' pending' tx',
    removalApart offset pending tx ->
    removalLoop data selection offset pending tx =
      Ok ((offset', pending'), tx') ->
    removalApart offset' pending' tx'.
Proof.
  induction selection as [|selected selection IH];
    intros offset pending tx offset' pending' tx' Hinv H; simpl in H.
  - apply ret_Ok in H. destruct H as [E <-]. injection E as <- <-.
    assumption.
  - destruct (removalSpan selected) as [nodeStart nodeEnd].
    destruct Hinv as [Hapart Hpending].
    destruct pending as [[removeStart removeEnd]|].
    + destruct (Z.eqb_spec removeEnd nodeStart) as [E | E].
      * apply (IH _ _ _ _ _ _) with (2 := H). split; assumption.
      * apply bind_Ok in H. destruct H as (u1 & tx1 & Hretain & H).
        apply bind_Ok in H. destruct H as (u2 & tx2 & Hreplace & H).
        apply pushRetain_apart in Hretain; [|assumption].
        destruct Hretain as [Hapart1 Hends1].
        assert (Hends : endsWithReplace (operations tx1) = false).
        { apply Hends1. intros Hends. specialize (Hpending Hends). lia. }
        eapply pushReplace_apart in Hreplace; [|assumption | assumption].
        apply (IH _ _ _ _ _ _) with (2 := H).
        split; [assumption|]. intros _. intros Eq. apply E. symmetry.
        exact Eq.
    + apply (IH _ _ _ _ _ _) with (2 := H).
      split; [assumption|]. intros Hends. contradiction (Hpending Hends).
Qed.

(** In every transaction [newFromRemoval] returns no replace follows
    another replace: removals that touch have been merged into one, and
    removals that lie apart have the retain of the gap between them. *)
Theorem newFromRemoval_replaces_apart (doc : Document) (range : Range)
    (tx : Transaction) :
  newFromRemoval doc range = Ok tx ->
  noAdjacentReplaces (operations tx) = true.
Proof.
  intros H. unfold newFromRemoval in H.
  apply build_Ok in H. destruct H as [u H].
  assert (Hlast : forall offset removeStart removeEnd t,
    noAdjacentReplaces (operations t) = true ->
    (endsWithReplace (operations t) = true -> removeStart <> offset) ->
    (pushRetain (removeStart - offset) ;;
     pushReplace (slice (getData doc) removeStart removeEnd) [] ;;
     pushRetain (len (getData doc) - removeEnd)) t = Ok (u, tx) ->
    noAdjacentReplaces (operations tx) = true).
  { intros offset removeStart removeEnd t Hapart Hgap Hrun.
    apply bind_Ok in Hrun. destruct Hrun as (u1 & t1 & Hretain & Hrun).
    apply bind_Ok in Hrun. destruct Hrun as (u2 & t2 & Hreplace & Hrun).
    apply pushRetain_apart in Hretain; [|assumption].
    destruct Hretain as [Hapart1 Hends1].
    eapply pushReplace_apart in Hreplace; [|assumption|].
    - apply pushRetain_apart in Hrun; [apply Hrun | assumption].
    - apply Hends1. intros Hends. specialize (Hgap Hends). lia. }
  destruct (start (normalize range) =? end_ (normalize range)).
  { apply pushRetain_apart in H; [apply H | reflexivity]. }
  destruct (selectNodes doc (normalize range) "covered")
    as [|first rest]; [discriminate H|].
  destruct (canBeMergedWith doc (node first)
              (node (List.last (first :: rest) first))).
  - destruct (mergeSpan first (List.last (first :: rest) first))
      as [removeStart removeEnd].
    replace removeStart with (removeStart - 0) in H at 1 by lia.
    apply (Hlast 0 removeStart removeEnd newTransaction);
      [reflexivity | discriminate | exact H].
  - apply bind_Ok in H. destruct H as ([offset pending] & tx1 & Hloop & H).
    apply removalLoop_apart in Hloop;
      [|split; [reflexivity | discriminate]].
    destruct Hloop as [Hapart Hpending].
    destruct pending as [[removeStart removeEnd]|].
    + apply (Hlast offset removeStart removeEnd tx1); assumption.
    + apply pushRetain_apart in H; [apply H | assumption].
Qed.

(** [newFromRemoval_replaces_apart] on the removal from the heading and
    three paragraphs, where the two covered paragraphs share one replace. *)
Lemma newFromRemoval_replaces_apart_witness :
  exists tx,
    newFromRemoval mixedDocument {| start := 2; end_ := 12 |} = Ok tx /\
    List.length (replaces (operations tx)) = 3%nat /\
    noAdjacentReplaces (operations tx) = true.
Proof.
  eexists. split; [reflexivity|]. split; [reflexivity|].
  apply (@newFromRemoval_replaces_apart mixedDocument
           {| start := 2; end_ := 12 |}).
  reflexivity.
Defined.
